(** * The web-platform-test screenshot harness (wpt.py)

    A shallow embedding of [wpt.py]: the script serves a local copy of
    the web-platform tests, asks an external renderer for a screenshot
    of every flexbox test page and of its reference page, and compares
    the two images with [pixelmatch].

    Everything outside the script (the renderer process, the file
    system faults, the HTML parser, the pixel matcher, [glob] and
    [os.path.relpath]) is an oracle of the environment record [Env];
    the script itself is written in a small monad that threads the
    disk, collects the trace of external calls and carries Python's
    exceptions and the [continue] statement. *)

From Stdlib Require Import ZArith QArith List Ascii String Bool Lia.
From stdpp Require Import base option list gmap strings.

Local Open Scope Z_scope.
Local Open Scope stdpp_scope.

(** ** Python string operations *)

Module Str.

(** [s.startswith(p)] *)
Fixpoint startswith (s p : string) {struct p} : bool :=
  match p, s with
  | EmptyString, _ => true
  | String _ _, EmptyString => false
  | String a p', String b s' => if Ascii.eqb a b then startswith s' p' else false
  end.

(** Reversal of a string, used for suffix tests. *)
Fixpoint rev_onto (s acc : string) : string :=
  match s with
  | EmptyString => acc
  | String c s' => rev_onto s' (String c acc)
  end.

Definition rev (s : string) : string := rev_onto s EmptyString.

(** [s.endswith(suffix)] *)
Definition endswith (s suffix : string) : bool :=
  startswith (rev s) (rev suffix).

(** [sub in s] *)
Fixpoint contains (sub s : string) : bool :=
  startswith s sub ||
  match s with
  | EmptyString => false
  | String _ s' => contains sub s'
  end.

(** [s.replace(old, new)] for a non-empty [old]: the occurrences are
    taken from left to right and do not overlap.  [skip] counts the
    characters of a matched occurrence still to be dropped. *)
Fixpoint replace_from (old new : string) (skip : nat) (s : string) : string :=
  match s with
  | EmptyString => EmptyString
  | String c s' =>
      match skip with
      | S k => replace_from old new k s'
      | O =>
          if startswith s old
          then new +:+ replace_from old new (String.length old - 1) s'
          else String c (replace_from old new O s')
      end
  end.

Definition replace (s old new : string) : string := replace_from old new O s.

(** [s.split(sep)] for a one-character separator. *)
Fixpoint split (sep : ascii) (s : string) : list string :=
  match s with
  | EmptyString => [EmptyString]
  | String c s' =>
      if Ascii.eqb c sep then EmptyString :: split sep s'
      else match split sep s' with
           | [] => [String c EmptyString]
           | w :: ws => String c w :: ws
           end
  end.

(** [sep.join(parts)] *)
Fixpoint join (sep : string) (parts : list string) : string :=
  match parts with
  | [] => EmptyString
  | [w] => w
  | w :: ws => w +:+ sep +:+ join sep ws
  end.

(** [s[n:]] *)
Fixpoint drop (n : nat) (s : string) : string :=
  match n, s with
  | O, _ => s
  | S _, EmptyString => EmptyString
  | S k, String _ s' => drop k s'
  end.

Definition is_empty (s : string) : bool :=
  match s with EmptyString => true | _ => false end.

End Str.

(** The one-character string holding a backslash (Python's ["\\"]). *)
Definition backslash : string := String (ascii_of_nat 92) EmptyString.

(** ** [posixpath]: the lexical path functions behind [os.path.relpath] *)

Module posixpath.

Definition sep : ascii := "/"%char.
Definition sep_s : string := "/".

Definition isabs (p : string) : bool := Str.startswith p sep_s.

(** [posixpath.join(a, b)] *)
Definition join (a b : string) : string :=
  if Str.startswith b sep_s then b
  else if Str.is_empty a || Str.endswith a sep_s then a +:+ b
  else a +:+ sep_s +:+ b.

(** The loop of [normpath]: [acc] is [new_comps], newest first. *)
Fixpoint norm_comps (initial_slashes : nat) (comps acc : list string) : list string :=
  match comps with
  | [] => List.rev acc
  | comp :: rest =>
      if Str.is_empty comp || String.eqb comp "." then norm_comps initial_slashes rest acc
      else if negb (String.eqb comp "..")
              || (Nat.eqb initial_slashes 0 && match acc with [] => true | _ => false end)
              || match acc with last :: _ => String.eqb last ".." | [] => false end
      then norm_comps initial_slashes rest (comp :: acc)
      else match acc with
           | _ :: acc' => norm_comps initial_slashes rest acc'
           | [] => norm_comps initial_slashes rest acc
           end
  end.

Definition normpath (path : string) : string :=
  if Str.is_empty path then "."
  else
    let initial_slashes :=
      if Str.startswith path sep_s then
        if Str.startswith path "//" && negb (Str.startswith path "///") then 2%nat else 1%nat
      else 0%nat in
    let comps := norm_comps initial_slashes (Str.split sep path) [] in
    let path := Str.join sep_s comps in
    let path := match initial_slashes with
                | O => path
                | S O => sep_s +:+ path
                | _ => "//" +:+ path
                end in
    if Str.is_empty path then "." else path.

Definition abspath (cwd path : string) : string :=
  if isabs path then normpath path else normpath (join cwd path).

Fixpoint commonprefix_len (l1 l2 : list string) : nat :=
  match l1, l2 with
  | a :: l1', b :: l2' => if String.eqb a b then S (commonprefix_len l1' l2') else O
  | _, _ => O
  end.

Definition nonempty_parts (p : string) : list string :=
  List.filter (fun x => negb (Str.is_empty x)) (Str.split sep p).

(** [posixpath.relpath(path, start)]; [None] is the [ValueError] raised
    for an empty [path]. *)
Definition relpath (cwd path start : string) : option string :=
  if Str.is_empty path then None
  else
    let start_list := nonempty_parts (abspath cwd start) in
    let path_list := nonempty_parts (abspath cwd path) in
    let i := commonprefix_len start_list path_list in
    let rel_list :=
      List.repeat ".." (List.length start_list - i) ++ List.skipn i path_list in
    match rel_list with
    | [] => Some "."
    | _ => Some (Str.join sep_s rel_list)
    end.

End posixpath.

(** ** Data of the script *)

(** Python exceptions.  The [except] clauses of the script name two
    classes of [subprocess]; every other class is kept by name. *)
Inductive exn :=
| TimeoutExpired
| CalledProcessError (returncode : Z)
| SystemExit
| OtherError (cls : string).

(** A decoded raster image ([PIL.Image]): its size and its RGBA pixels. *)
Definition RGBA : Type := Z * Z * Z * Z.

Record Image := mkImage { size : Z * Z; pixels : list RGBA }.

(** [Image.new("RGBA", size)]: a fully transparent canvas. *)
Definition Image_new (sz : Z * Z) : Image :=
  mkImage sz (List.repeat (0, 0, 0, 0) (Z.to_nat (fst sz * snd sz))).

(** What a path of the disk holds, as far as [Image.open] can tell. *)
Inductive content :=
| Png (img : Image)
| Garbage.

(** An element found by BeautifulSoup: its attributes. *)
Definition Tag : Type := list (string * string).

Fixpoint tag_get (tag : Tag) (key : string) : option string :=
  match tag with
  | [] => None
  | (k, v) :: tag' => if String.eqb k key then Some v else tag_get tag' key
  end.

(** How the renderer process ends under [subprocess.run]. *)
Inductive proc_behaviour :=
| Exited (code : Z)
| TimedOut
| SpawnFailed (cls : string).

(** The keyword arguments of [pixelmatch]. *)
Record pm_opts := mkOpts { threshold : Q; diff_mask : bool; includeAA : bool }.

Inductive level := INFO | ERROR.

Inductive printable :=
| PStr (s : string)
| PExn (e : exn).

(** The external calls of the script, each with what it answered. *)
Inductive event :=
| EvThreadStart (wpt_dir : string) (port : Z)
| EvRmtree (dir : string)
| EvMakedirs (dir : string) (r : option exn)
| EvRun (cmd : list string) (timeout : Z) (b : proc_behaviour)
| EvMkdirParent (path : string) (r : option exn)
| EvOpen (path : string) (r : exn + Image)
| EvSave (path : string) (img : Image) (r : option exn)
| EvSoup (file : string) (r : exn + option Tag)
| EvPixelmatch (img1 img2 : Image) (opts : pm_opts) (r : exn + Z * Image)
| EvPrint (x : printable)
| EvLog (logger_name : string) (lvl : level) (msg : string).

(** The environment: the answers of everything the script calls but
    does not define.  The oracles of the renderer and of the file-system
    faults see the calls made so far. *)
Record Env := mkEnv {
  os_getenv : string -> option string;
  glob_glob : string -> list string;
  os_path_relpath : string -> string -> exn + string;
  (** the renderer: how the process ends and what it left at its fixed
      output path ([None]: the path is not touched) *)
  proc : list event -> list string -> Z -> proc_behaviour * option content;
  mkdir_fault : list event -> string -> option exn;
  save_fault : list event -> string -> option exn;
  (** [BeautifulSoup(open(file), "html.parser").find("link", rel="match")] *)
  soup_find_link_match : string -> exn + option Tag;
  (** [pixelmatch(img1, img2, output, ...)]: the mismatch count and the
      output image as the call leaves it *)
  pixelmatch : Image -> Image -> Image -> pm_opts -> exn + Z * Image
}.

(** ** The monad of the script *)

(** A statement ends normally with a value, with [continue], or with an
    exception. *)
Inductive res (A : Type) :=
| Val (a : A)
| Continue
| Raise (e : exn).

Arguments Val {A} a.
Arguments Continue {A}.
Arguments Raise {A} e.

Record out (A : Type) := Out {
  result : res A;
  emitted : list event;
  disk : gmap string content
}.

Arguments Out {A} result emitted disk.
Arguments result {A} o.
Arguments emitted {A} o.
Arguments disk {A} o.

(** A computation reads the calls made so far and the disk. *)
Definition M (A : Type) : Type := list event -> gmap string content -> out A.

Definition ret {A} (a : A) : M A := fun _ fs => Out (Val a) [] fs.

Definition raise {A} (e : exn) : M A := fun _ fs => Out (Raise e) [] fs.

Definition continue {A} : M A := fun _ fs => Out Continue [] fs.

(** [evs] happened before what [o] reports. *)
Definition prepend {A} (evs : list event) (o : out A) : out A :=
  match o with
  | Out r ev fs => Out r (evs ++ ev) fs
  end.

Definition bind {A B} (m : M A) (k : A -> M B) : M B := fun h fs =>
  match m h fs with
  | Out (Val a) ev fs1 => prepend ev (k a (h ++ ev) fs1)
  | Out Continue ev fs1 => Out Continue ev fs1
  | Out (Raise e) ev fs1 => Out (Raise e) ev fs1
  end.

(** [try: m  except ...: handler]; a handler re-raises what no clause
    matches. *)
Definition try_except {A} (m : M A) (handler : exn -> M A) : M A := fun h fs =>
  match m h fs with
  | Out (Raise e) ev fs1 => prepend ev (handler e (h ++ ev) fs1)
  | o => o
  end.

(** [for x in l: body]; [continue] ends one iteration, an exception
    ends the loop. *)
Fixpoint for_each {A} (l : list A) (body : A -> M unit) : M unit :=
  match l with
  | [] => ret tt
  | x :: l' => fun h fs =>
      match body x h fs with
      | Out (Raise e) ev fs1 => Out (Raise e) ev fs1
      | Out _ ev fs1 => prepend ev (for_each l' body (h ++ ev) fs1)
      end
  end.

Declare Scope py_scope.
Delimit Scope py_scope with py.
Notation "x <- m ;; k" := (bind m (fun x => k))
  (at level 20, m at level 99, k at level 200, only parsing) : py_scope.
Notation "m ;; k" := (bind m (fun _ => k))
  (at level 100, k at level 200, only parsing, right associativity) : py_scope.

Definition emit (ev : event) : M unit := fun _ fs => Out (Val tt) [ev] fs.

Definition of_sum {A} (r : exn + A) : res A :=
  match r with inl e => Raise e | inr a => Val a end.

Definition of_fault (r : option exn) : res unit :=
  match r with Some e => Raise e | None => Val tt end.

(** ** The script *)

Section Script.

Context (env : Env).

Local Open Scope py_scope.

(** *** The library calls, as actions of the monad *)

(** [logger.info], [logger.error] of the logger ["taffy-wpt"], and
    [logging.error] of the root logger. *)
Definition logger_info (msg : string) : M unit := emit (EvLog "taffy-wpt" INFO msg).
Definition logger_error (msg : string) : M unit := emit (EvLog "taffy-wpt" ERROR msg).
Definition logging_error (msg : string) : M unit := emit (EvLog "root" ERROR msg).

Definition print (x : printable) : M unit := emit (EvPrint x).

(** [quit()] raises [SystemExit]. *)
Definition quit {A} : M A := raise SystemExit.

Definition relpath (path start : string) : M string := fun _ fs =>
  Out (of_sum (os_path_relpath env path start)) [] fs.

(** The disk once the renderer has ended: it touches nothing but its
    fixed output path. *)
Definition renderer_leaves (output_path : string) (written : option content)
    (fs : gmap string content) : gmap string content :=
  match written with
  | Some c => <[output_path := c]> fs
  | None => fs
  end.

(** [subprocess.run(cmd, timeout=timeout, check=True, ...)].  With
    [check=True] a non-zero exit status raises [CalledProcessError];
    an overrun raises [TimeoutExpired].  [output_path] is the fixed
    path at which the renderer leaves its screenshot. *)
Definition subprocess_run (output_path : string) (cmd : list string) (timeout : Z)
  : M unit := fun h fs =>
  let r := proc env h cmd timeout in
  Out (match fst r with
       | Exited code => if code =? 0 then Val tt else Raise (CalledProcessError code)
       | TimedOut => Raise TimeoutExpired
       | SpawnFailed cls => Raise (OtherError cls)
       end)
      [EvRun cmd timeout (fst r)]
      (renderer_leaves output_path (snd r) fs).

(** [Path(path).parent.mkdir(parents=True, exist_ok=True)] *)
Definition Path_parent_mkdir (path : string) : M unit := fun h fs =>
  let r := mkdir_fault env h path in
  Out (of_fault r) [EvMkdirParent path r] fs.

(** [os.makedirs(dir, exist_ok=True)] *)
Definition os_makedirs (dir : string) : M unit := fun h fs =>
  let r := mkdir_fault env h dir in
  Out (of_fault r) [EvMakedirs dir r] fs.

(** [shutil.rmtree(dir, ignore_errors=True)], idealised: the removal
    always succeeds, and it removes the paths spelled [dir/...]; a
    removal that fails is silent in the script as well, but would leave
    files behind. *)
Definition shutil_rmtree (dir : string) : M unit := fun _ fs =>
  Out (Val tt) [EvRmtree dir]
      (filter (fun kv => Str.startswith (fst kv) (dir +:+ "/") = false) fs).

(** [Image.open(path)] *)
Definition Image_open (path : string) : M Image := fun _ fs =>
  let r := match fs !! path with
           | None => inl (OtherError "FileNotFoundError")
           | Some Garbage => inl (OtherError "UnidentifiedImageError")
           | Some (Png img) => inr img
           end in
  Out (of_sum r) [EvOpen path r] fs.

(** [img.save(path)]: the disk is keyed by the path as it is spelled;
    two spellings of one file are two keys. *)
Definition Image_save (img : Image) (path : string) : M unit := fun h fs =>
  let r := save_fault env h path in
  Out (of_fault r) [EvSave path img r]
      (match r with
       | None => <[path := Png img]> fs
       | Some _ => fs
       end).

(** [with open(file, "r") as f: soup = BeautifulSoup(f, "html.parser")]
    followed by [soup.find("link", rel="match")] *)
Definition soup_find (file : string) : M (option Tag) := fun _ fs =>
  let r := soup_find_link_match env file in
  Out (of_sum r) [EvSoup file r] fs.

(** [tag[key]] *)
Definition tag_getitem (tag : Tag) (key : string) : M string :=
  match tag_get tag key with
  | Some v => ret v
  | None => raise (OtherError "KeyError")
  end.

Definition call_pixelmatch (img1 img2 output : Image) (opts : pm_opts)
  : M (Z * Image) := fun _ fs =>
  let r := pixelmatch env img1 img2 output opts in
  Out (of_sum r) [EvPixelmatch img1 img2 opts r] fs.

(** *** [create_diff_image_or_none] (lines 38-46) *)

Definition create_diff_image_or_none (img1 img2 : Image) : M (option Image) :=
  let img_diff := Image_new (size img1) in
  r <- call_pixelmatch img1 img2 img_diff (mkOpts 0%Q true true) ;;
  let img_diff := snd r in
  let did_pass := fst r <=? 0 in
  if negb did_pass then ret (Some img_diff) else ret None.

(** *** The body of the loop of [main] (lines 76-150) *)

(** The test of line 80. *)
Definition excluded (file : string) : bool :=
  Str.endswith file "-ref.html" || Str.endswith file ".tentative.html"
  || Str.contains "reference" file.

(** Lines 83-150: what the loop does with a file that passed line 80.
    The assignments of [url_dir] (line 113) and [status] (line 146) are
    never read and have no effect; they are left out. *)
Definition test_case (wpt_dir blitz_path output_path : string) (timeout : Z)
    (file : string) : M unit :=
  let fail_message := "FAIL: " +:+ file in
  let pass_message := "PASS: " +:+ file in
  let skip_message := "SKIP: " +:+ file in
  rel_path <- relpath file wpt_dir ;;
  let url := "http://localhost:8000/" +:+ rel_path in
  let cmd := ["cargo"; "run"; "--release"; "--manifest-path";
              blitz_path +:+ "/Cargo.toml"; "--example"; "screenshot"; url] in
  try_except (subprocess_run output_path cmd timeout)
    (fun e => match e with
              | TimeoutExpired => logger_info skip_message ;; continue
              | CalledProcessError _ =>
                  print (PExn e) ;; logger_info skip_message ;; continue
              | _ => raise e
              end) ;;
  let actual_out_path := "out/" +:+ rel_path +:+ "-act.png" in
  Path_parent_mkdir actual_out_path ;;
  actual_image <- Image_open output_path ;;
  Image_save actual_image actual_out_path ;;
  actual_image <- Image_open actual_out_path ;;
  link_tag <- soup_find file ;;
  href_value <- match link_tag with
                | Some tag => tag_getitem tag "href"
                | None => logger_info skip_message ;; continue
                end ;;
  let reference_url := "http://localhost:8000/css/css-flexbox/" +:+ href_value in
  print (PStr reference_url) ;;
  let cmd := ["cargo"; "run"; "--release"; "--manifest-path";
              blitz_path +:+ "/Cargo.toml"; "--example"; "screenshot";
              reference_url] in
  try_except (subprocess_run output_path cmd timeout)
    (fun e => match e with
              | TimeoutExpired => logger_info skip_message ;; continue
              | CalledProcessError _ =>
                  print (PExn e) ;; logger_info skip_message ;; continue
              | _ => raise e
              end) ;;
  let expected_out_path := "out/" +:+ rel_path +:+ "-ref.png" in
  Path_parent_mkdir expected_out_path ;;
  expected_image <- Image_open output_path ;;
  Image_save expected_image expected_out_path ;;
  expected_image <- Image_open expected_out_path ;;
  let rel_path := Str.replace rel_path backslash "_" in
  let diff_output_path := "out/" +:+ rel_path +:+ "-diff.png" in
  diff_image <- create_diff_image_or_none actual_image expected_image ;;
  are_equal <- match diff_image with
               | Some diff_image => Image_save diff_image diff_output_path ;; ret false
               | None => ret true
               end ;;
  if are_equal : bool then logger_info pass_message else logger_error fail_message.

(** Lines 76-150: the whole body, with the filter of line 80. *)
Definition loop_body (wpt_dir blitz_path output_path : string) (timeout : Z)
    (file : string) : M unit :=
  if excluded file then continue
  else test_case wpt_dir blitz_path output_path timeout file.

(** *** [main] (lines 49-152) *)

(** Line 73: the matches of the glob pattern. *)
Definition files (wpt_dir : string) : list string :=
  glob_glob env (wpt_dir +:+ "/css/css-flexbox/**/*.html").

Definition main : M unit :=
  match os_getenv env "WPT_DIR" with
  | None => logging_error "WPT_DIR environment variable is not set" ;; quit
  | Some wpt_dir =>
      match os_getenv env "BLITZ_REPO" with
      | None => logging_error "BLITZ_REPO environment variable is not set" ;; quit
      | Some blitz_path =>
          let timeout := 5 in
          let output_path := blitz_path +:+ "/examples/output/localhost800.png" in
          emit (EvThreadStart wpt_dir 8000) ;;
          shutil_rmtree "out" ;;
          os_makedirs "out" ;;
          let files := files wpt_dir in
          for_each files (loop_body wpt_dir blitz_path output_path timeout) ;;
          quit
      end
  end.

End Script.

(** ** Reading a trace *)

(** The log lines, in order. *)
Fixpoint log_lines (evs : list event) : list (level * string) :=
  match evs with
  | [] => []
  | EvLog _ lvl msg :: evs' => (lvl, msg) :: log_lines evs'
  | _ :: evs' => log_lines evs'
  end.

(** The path a log line of the loop carries: what follows the six
    characters of ["PASS: "], ["FAIL: "] or ["SKIP: "]. *)
Definition logged_files (evs : list event) : list string :=
  List.map (fun line => Str.drop 6 (snd line)) (log_lines evs).

(** The renderer invocations, in order, each with how it ended. *)
Fixpoint invocations (evs : list event) : list (list string * proc_behaviour) :=
  match evs with
  | [] => []
  | EvRun cmd _ b :: evs' => (cmd, b) :: invocations evs'
  | _ :: evs' => invocations evs'
  end.

(** What follows the HTML lookup of a test case. *)
Fixpoint after_soup (evs : list event) : list event :=
  match evs with
  | [] => []
  | EvSoup _ _ :: evs' => evs'
  | _ :: evs' => after_soup evs'
  end.

(** The renderer commands issued for the reference page. *)
Definition reference_commands (evs : list event) : list (list string) :=
  List.map fst (invocations (after_soup evs)).

(** The exception an external call ended with, if any. *)
Definition raised (ev : event) : option exn :=
  match ev with
  | EvRun _ _ (Exited code) => if code =? 0 then None else Some (CalledProcessError code)
  | EvRun _ _ TimedOut => Some TimeoutExpired
  | EvRun _ _ (SpawnFailed cls) => Some (OtherError cls)
  | EvMakedirs _ r => r
  | EvMkdirParent _ r => r
  | EvOpen _ (inl e) => Some e
  | EvSave _ _ r => r
  | EvSoup _ (inl e) => Some e
  | EvPixelmatch _ _ _ (inl e) => Some e
  | _ => None
  end.

(** The calls whose exception an [except] clause of the loop names: a
    renderer run that overran or exited with a non-zero status. *)
Definition handled (ev : event) : bool :=
  match ev with
  | EvRun _ _ TimedOut => true
  | EvRun _ _ (Exited code) => negb (code =? 0)
  | _ => false
  end.

(** The paths written by [save], in order. *)
Fixpoint saved_paths (evs : list event) : list string :=
  match evs with
  | [] => []
  | EvSave path _ None :: evs' => path :: saved_paths evs'
  | _ :: evs' => saved_paths evs'
  end.

(** What the script relies on from [pixelmatch]: the result counts
    pixels, and an image compared with itself mismatches nowhere. *)
Definition pixelmatch_contract (env : Env) : Prop :=
  forall (a b output : Image) (opts : pm_opts) (n : Z) (d : Image),
    pixelmatch env a b output opts = inr (n, d) ->
    0 <= n /\ (a = b -> n = 0).

(** The test of line 80, kept as a filter: the files the loop works on. *)
Definition kept (l : list string) : list string :=
  List.filter (fun file => negb (excluded file)) l.

(** ** Concrete environments *)

Module Scenario.

Definition rgba_eqb (p q : RGBA) : bool :=
  let '(r1, g1, b1, a1) := p in
  let '(r2, g2, b2, a2) := q in
  (r1 =? r2) && (g1 =? g2) && (b1 =? b2) && (a1 =? a2).

(** A pixel counter for opaque screenshots at threshold 0: a position
    mismatches when its channels differ; with [diff_mask] the output
    keeps its pixel where the inputs agree and turns red elsewhere. *)
Fixpoint mask (p1 p2 out : list RGBA) : Z * list RGBA :=
  match p1, p2, out with
  | a :: p1', b :: p2', o :: out' =>
      let r := mask p1' p2' out' in
      if rgba_eqb a b then (fst r, o :: snd r)
      else (1 + fst r, (255, 0, 0, 255) :: snd r)
  | _, _, _ => (0, [])
  end.

Definition same_size (a b : Image) : bool :=
  (fst (size a) =? fst (size b)) && (snd (size a) =? snd (size b))
  && Nat.eqb (List.length (pixels a)) (List.length (pixels b)).

Definition count_pixelmatch (img1 img2 output : Image) (_ : pm_opts)
  : exn + Z * Image :=
  if same_size img1 img2 && same_size img1 output then
    let r := mask (pixels img1) (pixels img2) (pixels output) in
    inr (fst r, mkImage (size output) (snd r))
  else inl (OtherError "ValueError").

Fixpoint assoc {A} (key : string) (table : list (string * A)) : option A :=
  match table with
  | [] => None
  | (k, v) :: table' => if String.eqb k key then Some v else assoc key table'
  end.

(** A POSIX host.  [renders] answers a renderer invocation by the URL
    it is given (the last argument of the command); an unlisted URL
    makes the renderer exit with status 1.  [soups] answers the HTML
    lookup by file; an unlisted file cannot be read. *)
Definition posix_env (cwd : string) (vars : list (string * string))
    (files : list string)
    (renders : list (string * (proc_behaviour * option content)))
    (soups : list (string * (exn + option Tag))) : Env :=
  {| os_getenv := fun name => assoc name vars;
     glob_glob := fun _ => files;
     os_path_relpath := fun path start =>
       match posixpath.relpath cwd path start with
       | Some r => inr r
       | None => inl (OtherError "ValueError")
       end;
     proc := fun _ cmd _ =>
       match assoc (List.last cmd EmptyString) renders with
       | Some r => r
       | None => (Exited 1, None)
       end;
     mkdir_fault := fun _ _ => None;
     save_fault := fun _ _ => None;
     soup_find_link_match := fun file =>
       match assoc file soups with
       | Some r => r
       | None => inl (OtherError "FileNotFoundError")
       end;
     pixelmatch := count_pixelmatch |}.

Definition white : RGBA := (255, 255, 255, 255).
Definition black : RGBA := (0, 0, 0, 255).

(** Two 2x1 screenshots that differ in one pixel. *)
Definition shot_a : Image := mkImage (2, 1) [white; white].
Definition shot_b : Image := mkImage (2, 1) [white; black].

Definition vars : list (string * string) :=
  [("WPT_DIR", "/wpt"); ("BLITZ_REPO", "/blitz")].

Definition foo : string := "/wpt/css/css-flexbox/foo.html".
Definition foo_ref : string := "/wpt/css/css-flexbox/foo-ref.html".
Definition foo_url : string := "http://localhost:8000/css/css-flexbox/foo.html".
Definition foo_ref_url : string := "http://localhost:8000/css/css-flexbox/foo-ref.html".

Definition link_to (href : string) : exn + option Tag :=
  inr (Some [("rel", "match"); ("href", href)]).

(** [foo.html] names [foo-ref.html]; the renderer draws both alike. *)
Definition env_pass : Env :=
  posix_env "/home/u" vars [foo; foo_ref]
    [(foo_url, (Exited 0, Some (Png shot_a)));
     (foo_ref_url, (Exited 0, Some (Png shot_a)))]
    [(foo, link_to "foo-ref.html")].

(** The same, but the reference is drawn with one other pixel. *)
Definition env_fail : Env :=
  posix_env "/home/u" vars [foo; foo_ref]
    [(foo_url, (Exited 0, Some (Png shot_a)));
     (foo_ref_url, (Exited 0, Some (Png shot_b)))]
    [(foo, link_to "foo-ref.html")].

(** The renderer overruns on the test page of [foo.html]; a second
    test follows. *)
Definition bar : string := "/wpt/css/css-flexbox/sub/bar.html".
Definition bar_url : string := "http://localhost:8000/css/css-flexbox/sub/bar.html".

Definition env_timeout : Env :=
  posix_env "/home/u" vars [foo; bar]
    [(foo_url, (TimedOut, None));
     (bar_url, (Exited 0, Some (Png shot_a)));
     (foo_ref_url, (Exited 0, Some (Png shot_a)))]
    [(foo, link_to "foo-ref.html"); (bar, link_to "foo-ref.html")].

(** Two tests in different directories name the same [href]. *)
Definition env_two : Env :=
  posix_env "/home/u" vars [foo; bar]
    [(foo_url, (Exited 0, Some (Png shot_a)));
     (bar_url, (Exited 0, Some (Png shot_a)));
     (foo_ref_url, (Exited 0, Some (Png shot_a)))]
    [(foo, link_to "foo-ref.html"); (bar, link_to "foo-ref.html")].

(** [foo.html] has no [link rel=match]. *)
Definition env_nolink : Env :=
  posix_env "/home/u" vars [foo; bar]
    [(foo_url, (Exited 0, Some (Png shot_a)));
     (bar_url, (Exited 0, Some (Png shot_a)));
     (foo_ref_url, (Exited 0, Some (Png shot_a)))]
    [(foo, inr None); (bar, link_to "foo-ref.html")].

(** The renderer leaves something that is not an image for [foo.html]. *)
Definition env_garbage : Env :=
  posix_env "/home/u" vars [foo; bar]
    [(foo_url, (Exited 0, Some Garbage));
     (bar_url, (Exited 0, Some (Png shot_a)));
     (foo_ref_url, (Exited 0, Some (Png shot_a)))]
    [(foo, link_to "foo-ref.html"); (bar, link_to "foo-ref.html")].

(** [WPT_DIR] is set but empty: the pattern matches from the root of
    the file system, and [relpath] climbs out of the working
    directory. *)
Definition env_rootdir : Env :=
  posix_env "/home/u" [("WPT_DIR", EmptyString); ("BLITZ_REPO", "/blitz")]
    ["/css/css-flexbox/foo.html"]
    [("http://localhost:8000/../../css/css-flexbox/foo.html",
      (Exited 0, Some (Png shot_a)));
     (foo_ref_url, (Exited 0, Some (Png shot_a)))]
    [("/css/css-flexbox/foo.html", link_to "foo-ref.html")].

Definition output_path : string := "/blitz/examples/output/localhost800.png".

(** The renderer command for a URL. *)
Definition cargo (url : string) : list string :=
  ["cargo"; "run"; "--release"; "--manifest-path"; "/blitz/Cargo.toml";
   "--example"; "screenshot"; url].

(** One iteration of the loop, from an empty trace and an empty disk. *)
Definition iteration (env : Env) (file : string) : out unit :=
  loop_body env "/wpt" "/blitz" output_path 5 file [] ∅.

(** The loop of [main] alone. *)
Definition loop (env : Env) : out unit :=
  for_each (files env "/wpt") (loop_body env "/wpt" "/blitz" output_path 5) [] ∅.

(** The whole script on an empty disk. *)
Definition run (env : Env) : out unit := main env [] ∅.

End Scenario.

(** ** Names of the script used in the statements *)

(** The renderer command of lines 85 and 119. *)
Definition cargo_command (blitz_path url : string) : list string :=
  ["cargo"; "run"; "--release"; "--manifest-path"; blitz_path +:+ "/Cargo.toml";
   "--example"; "screenshot"; url].

(** [output_path] of line 64. *)
Definition renderer_output (blitz_path : string) : string :=
  blitz_path +:+ "/examples/output/localhost800.png".

(** The three artifact names of a test case (lines 97, 131 and 138). *)
Definition actual_out_path (rel_path : string) : string :=
  "out/" +:+ rel_path +:+ "-act.png".

Definition expected_out_path (rel_path : string) : string :=
  "out/" +:+ rel_path +:+ "-ref.png".

Definition diff_output_path (rel_path : string) : string :=
  "out/" +:+ Str.replace rel_path backslash "_" +:+ "-diff.png".

(** A path below [out] that ends like one of the three artifact names. *)
Definition is_artifact (p : string) : bool :=
  Str.startswith p "out/"
  && (Str.endswith p "-act.png" || Str.endswith p "-ref.png"
      || Str.endswith p "-diff.png").

(** What [main] does before its loop (lines 67-71) when the directory
    [out] can be made. *)
Definition startup (wpt_dir : string) : list event :=
  [EvThreadStart wpt_dir 8000; EvRmtree "out"; EvMakedirs "out" None].

(** The disk once [out] has been removed. *)
Definition cleared (fs : gmap string content) : gmap string content :=
  filter (fun kv => Str.startswith (fst kv) "out/" = false) fs.

(** The test page and the reference page of a test case. *)
Definition test_url (rel_path : string) : string :=
  "http://localhost:8000/" +:+ rel_path.

Definition reference_url (href_value : string) : string :=
  "http://localhost:8000/css/css-flexbox/" +:+ href_value.

(** More concrete hosts and disks. *)
Module Setup.

(** [WPT_DIR] is not set. *)
Definition env_unset : Env :=
  Scenario.posix_env "/home/u" [("BLITZ_REPO", "/blitz")] [Scenario.foo] [] [].


(** A disk with a diff image of an earlier run and a file elsewhere. *)
Definition old_disk : gmap string content :=
  <["out/css/old.html-diff.png" := Png Scenario.shot_b]>
    (<["/home/u/notes.png" := Png Scenario.shot_a]> ∅).

(** The renderer draws the test page but, asked for the reference
    page, exits with status 0 without writing its output file. *)
Definition env_unwritten : Env :=
  Scenario.posix_env "/home/u" Scenario.vars [Scenario.foo]
    [(Scenario.foo_url, (Exited 0, Some (Png Scenario.shot_b)));
     (Scenario.foo_ref_url, (Exited 0, None))]
    [(Scenario.foo, Scenario.link_to "foo-ref.html")].

(** [foo.html] has no [link rel=match], and the renderer leaves
    something that is not an image for it. *)
Definition env_nolink_garbage : Env :=
  Scenario.posix_env "/home/u" Scenario.vars [Scenario.foo; Scenario.bar]
    [(Scenario.foo_url, (Exited 0, Some Garbage));
     (Scenario.bar_url, (Exited 0, Some (Png Scenario.shot_a)));
     (Scenario.foo_ref_url, (Exited 0, Some (Png Scenario.shot_a)))]
    [(Scenario.foo, inr None); (Scenario.bar, Scenario.link_to "foo-ref.html")].

End Setup.

(** A renderer run as the loop issues it: the [cargo] command of some
    URL, with the loop's timeout. *)
Definition issued_by_loop (blitz_path : string) (timeout : Z) (call : event) : Prop :=
  match call with
  | EvRun cmd t _ => t = timeout /\ exists url, cmd = cargo_command blitz_path url
  | _ => True
  end.

(** ** The enumerator in the words of the specification *)

(** The filtering policy of section 4.2: a candidate is excluded if its
    name ends with [-ref.html], ends with [.tentative.html], or its path
    contains [reference]. *)
Definition spec_excludes (candidate : string) : bool :=
  Str.endswith candidate "-ref.html"
  || Str.endswith candidate ".tentative.html"
  || Str.contains "reference" candidate.

(** The primary test cases: the matches of the pattern below
    [css/css-flexbox], in the order of [glob], without the excluded
    ones. *)
Definition spec_primary_tests (env : Env) (wpt_dir : string) : list string :=
  List.filter (fun candidate => negb (spec_excludes candidate))
    (glob_glob env (wpt_dir +:+ "/css/css-flexbox/**/*.html")).

(** ** The path functions on examples *)

Example relpath_ex1 :
  posixpath.relpath "/home/u" "/wpt/css/css-flexbox/a/foo.html" "/wpt"
  = Some "css/css-flexbox/a/foo.html".
Proof. reflexivity. Qed.

Example relpath_ex2 :
  posixpath.relpath "/home/u" "wpt/../wpt//css/./x.html" "wpt" = Some "css/x.html".
Proof. reflexivity. Qed.

Example relpath_ex3 :
  posixpath.relpath "/home/u" "/css/x.html" EmptyString = Some "../../css/x.html".
Proof. reflexivity. Qed.

Example endswith_ex : Str.endswith "a/b-ref.html" "-ref.html" = true
                      /\ Str.endswith "ref.html" "-ref.html" = false
                      /\ Str.contains "reference" "x/reference/y.html" = true
                      /\ Str.replace ("a" +:+ backslash +:+ "b" +:+ backslash +:+ "c") backslash "_" = "a_b_c"
                      /\ Str.replace "a/b" backslash "_" = "a/b".
Proof. repeat split; reflexivity. Qed.

(** ** Facts about the string operations *)

Lemma rev_onto_app (a b acc : string) :
  Str.rev_onto (a +:+ b) acc = Str.rev_onto b (Str.rev_onto a acc).
Proof.
  revert acc. induction a as [|c a IH]; intros acc; [reflexivity|].
  cbn. apply IH.
Qed.

(** A suffix test on [x +:+ s] only looks at [s] reversed, then at [x]. *)
Lemma endswith_app (x s suffix : string) :
  Str.endswith (x +:+ s) suffix
  = Str.startswith (Str.rev_onto s (Str.rev x)) (Str.rev suffix).
Proof. unfold Str.endswith, Str.rev. now rewrite rev_onto_app. Qed.

Lemma append_inj_l (a b c : string) : a +:+ b = a +:+ c -> b = c.
Proof.
  induction a as [|x a IH]; cbn; [auto|].
  intros [= H]. auto.
Qed.

(** The same for the artifact names, which put [rel] between two
    fixed parts. *)
Lemma endswith_artifact (rel s suffix : string) :
  Str.endswith ("out/" +:+ rel +:+ s) suffix
  = Str.startswith (Str.rev_onto s (Str.rev_onto rel "/tuo")) (Str.rev suffix).
Proof. unfold Str.endswith, Str.rev. now rewrite !rev_onto_app. Qed.

Lemma diff_suffix (rel : string) :
  Str.endswith ("out/" +:+ rel +:+ "-diff.png") "-diff.png" = true.
Proof. now rewrite endswith_artifact. Qed.

Lemma act_suffix (rel : string) :
  Str.endswith ("out/" +:+ rel +:+ "-act.png") "-diff.png" = false.
Proof. now rewrite endswith_artifact. Qed.

Lemma ref_suffix (rel : string) :
  Str.endswith ("out/" +:+ rel +:+ "-ref.png") "-diff.png" = false.
Proof. now rewrite endswith_artifact. Qed.

(** The three artifact names of one test case never collide. *)
Lemma act_is_not_ref (rel : string) :
  "out/" +:+ rel +:+ "-act.png" <> "out/" +:+ rel +:+ "-ref.png".
Proof.
  intros H. apply append_inj_l in H. apply append_inj_l in H. discriminate H.
Qed.

Lemma act_is_not_diff (rel rel' : string) :
  "out/" +:+ rel +:+ "-act.png" <> "out/" +:+ rel' +:+ "-diff.png".
Proof.
  intros H. pose proof (act_suffix rel) as Ha. rewrite H, diff_suffix in Ha.
  discriminate Ha.
Qed.

Lemma ref_is_not_diff (rel rel' : string) :
  "out/" +:+ rel +:+ "-ref.png" <> "out/" +:+ rel' +:+ "-diff.png".
Proof.
  intros H. pose proof (ref_suffix rel) as Ha. rewrite H, diff_suffix in Ha.
  discriminate Ha.
Qed.

(** ** Facts about the monad and the trace readers *)

Lemma prepend_nil {A} (o : out A) : prepend [] o = o.
Proof. now destruct o. Qed.

Lemma bind_inv {A B} (m : M A) (k : A -> M B) h fs r ev fs' :
  bind m k h fs = Out r ev fs' ->
  (exists a ev1 fs1 ev2,
      m h fs = Out (Val a) ev1 fs1
      /\ k a (h ++ ev1) fs1 = Out r ev2 fs' /\ ev = ev1 ++ ev2)
  \/ (m h fs = Out Continue ev fs' /\ r = Continue)
  \/ (exists e, m h fs = Out (Raise e) ev fs' /\ r = Raise e).
Proof.
  unfold bind. destruct (m h fs) as [[a| |e] ev1 fs1].
  - destruct (k a (h ++ ev1) fs1) as [r2 ev2 fs2] eqn:Hk. cbn.
    intros [= <- <- <-]. left. exists a, ev1, fs1, ev2. auto.
  - intros [= <- <- <-]. auto.
  - intros [= <- <- <-]. right. right. eauto.
Qed.

Lemma try_except_inv {A} (m : M A) (handler : exn -> M A) h fs r ev fs' :
  try_except m handler h fs = Out r ev fs' ->
  (exists e ev1 fs1 ev2,
      m h fs = Out (Raise e) ev1 fs1
      /\ handler e (h ++ ev1) fs1 = Out r ev2 fs' /\ ev = ev1 ++ ev2)
  \/ (m h fs = Out r ev fs' /\ forall e, r <> Raise e).
Proof.
  unfold try_except. destruct (m h fs) as [[a| |e] ev1 fs1].
  - intros [= <- <- <-]. right. split; [reflexivity | discriminate].
  - intros [= <- <- <-]. right. split; [reflexivity | discriminate].
  - destruct (handler e (h ++ ev1) fs1) as [r2 ev2 fs2] eqn:Hk. cbn.
    intros [= <- <- <-]. left. exists e, ev1, fs1, ev2. auto.
Qed.

(** One turn of the loop either ends it with an exception or hands
    over to the rest of the list. *)
Lemma for_each_cons_inv {A} (x : A) (l : list A) (body : A -> M unit) h fs r ev fs' :
  for_each (x :: l) body h fs = Out r ev fs' ->
  (exists e, body x h fs = Out (Raise e) ev fs' /\ r = Raise e)
  \/ (exists r1 ev1 fs1 ev2,
         body x h fs = Out r1 ev1 fs1 /\ (forall e, r1 <> Raise e)
         /\ for_each l body (h ++ ev1) fs1 = Out r ev2 fs' /\ ev = ev1 ++ ev2).
Proof.
  cbn. destruct (body x h fs) as [[a| |e] ev1 fs1].
  - destruct (for_each l body (h ++ ev1) fs1) as [r2 ev2 fs2] eqn:Hk. cbn.
    intros [= <- <- <-]. right. exists (Val a), ev1, fs1, ev2.
    repeat split; [discriminate | assumption].
  - destruct (for_each l body (h ++ ev1) fs1) as [r2 ev2 fs2] eqn:Hk. cbn.
    intros [= <- <- <-]. right. exists Continue, ev1, fs1, ev2.
    repeat split; [discriminate | assumption].
  - intros [= <- <- <-]. left. eauto.
Qed.

(** An exception in one turn is the outcome of the whole loop. *)
Lemma for_each_raise {A} (x : A) (l : list A) (body : A -> M unit) h fs e ev fs' :
  body x h fs = Out (Raise e) ev fs' ->
  for_each (x :: l) body h fs = Out (Raise e) ev fs'.
Proof. intros H. cbn. now rewrite H. Qed.

(** A turn that does not raise is followed by the turns of the rest. *)
Lemma for_each_next {A} (x : A) (l : list A) (body : A -> M unit) h fs r ev fs' :
  body x h fs = Out r ev fs' -> (forall e, r <> Raise e) ->
  for_each (x :: l) body h fs = prepend ev (for_each l body (h ++ ev) fs').
Proof.
  intros H Hr. cbn. rewrite H. destruct r as [a| |e]; [reflexivity.. |].
  now destruct (Hr e).
Qed.

Lemma log_lines_app (ev1 ev2 : list event) :
  log_lines (ev1 ++ ev2) = log_lines ev1 ++ log_lines ev2.
Proof.
  induction ev1 as [|e ev1 IH]; [reflexivity|].
  destruct e; cbn; rewrite ?IH; reflexivity.
Qed.

Lemma logged_files_app (ev1 ev2 : list event) :
  logged_files (ev1 ++ ev2) = logged_files ev1 ++ logged_files ev2.
Proof. unfold logged_files. now rewrite log_lines_app, List.map_app. Qed.

(** The loop over all matches is the loop of [test_case] over the
    matches line 80 lets through. *)
Lemma loop_is_filtered (env : Env) (wpt blitz outp : string) (t : Z)
    (l : list string) h fs :
  for_each l (loop_body env wpt blitz outp t) h fs
  = for_each (kept l) (test_case env wpt blitz outp t) h fs.
Proof.
  revert h fs. induction l as [|f l IH]; intros h fs; [reflexivity|].
  unfold kept. cbn [List.filter for_each]. unfold loop_body at 1.
  destruct (excluded f) eqn:Hex; cbn [negb].
  - unfold continue. rewrite prepend_nil, app_nil_r. apply IH.
  - cbn [for_each]. destruct (test_case env wpt blitz outp t f h fs) as [[a| |e] ev fs1];
      try reflexivity; f_equal; apply IH.
Qed.

(** ** Running the body of the loop symbolically *)

(** Case analysis on the innermost undecided test of [H]. *)
Ltac step H :=
  match type of H with
  | context [match ?x with _ => _ end] =>
      lazymatch x with
      | context [match _ with _ => _ end] => fail
      | _ => destruct x eqn:?
      end
  end.

(** One library call: ask the oracle, read off what it answered. *)
Ltac prim H :=
  cbv beta iota zeta delta
    [ret raise continue quit emit relpath subprocess_run Path_parent_mkdir
     os_makedirs shutil_rmtree Image_open Image_save soup_find tag_getitem
     call_pixelmatch logger_info logger_error logging_error print
     of_sum of_fault fst snd negb] in H;
  rewrite ?lookup_insert_eq in H;
  repeat (step H; cbv beta iota in H);
  inversion H; clear H; subst.

(** Follow [H : m h fs = Out r ev fs'] statement by statement. *)
Ltac walk H :=
  cbv beta iota zeta in H;
  lazymatch type of H with
  | bind _ _ _ _ = _ =>
      let Hm := fresh "Hm" in
      let Hk := fresh "Hk" in
      let Hr := fresh "Hr" in
      apply bind_inv in H;
      destruct H as [(? & ? & ? & ? & Hm & Hk & Hr) | [(Hm & Hr) | (? & Hm & Hr)]];
      first [discriminate Hr | simplify_eq; walk Hm; try walk Hk]
  | try_except _ _ _ _ = _ =>
      let Hm := fresh "Hm" in
      let Hk := fresh "Hk" in
      let Hr := fresh "Hr" in
      apply try_except_inv in H;
      destruct H as [(? & ? & ? & ? & Hm & Hk & Hr) | (Hm & Hr)];
      [ subst; walk Hm; walk Hk
      | walk Hm; try solve [exfalso; eapply Hr; reflexivity]; clear Hr ]
  | (match ?x with _ => _ end) _ _ = _ => destruct x eqn:?; walk H
  | _ => prim H
  end.

(** Turn the boolean tests met on the way into facts and flatten the
    trace. *)
Ltac tidy :=
  repeat match goal with
         | p : (_ * _)%type |- _ => destruct p; cbn [fst snd] in *
         | H : negb _ = true |- _ => apply negb_true_iff in H; cbn [fst snd] in H
         | H : negb _ = false |- _ => apply negb_false_iff in H; cbn [fst snd] in H
         | H : (_ =? _) = true |- _ => apply Z.eqb_eq in H; subst
         | H : (_ =? _) = false |- _ => apply Z.eqb_neq in H
         | H : (_ <=? _) = true |- _ => apply Z.leb_le in H
         | H : (_ <=? _) = false |- _ => apply Z.leb_gt in H
         end;
  cbn [app] in *.

(** All the ways through one test case.  The goal must speak of the
    outcome in [H] only; it is set aside while the statements are
    followed, which keeps every step small. *)
Ltac run_test_case H :=
  lazymatch type of H with
  | _ = Out ?r ?ev ?fs' =>
      pattern r, ev, fs';
      lazymatch goal with
      | |- ?P _ _ _ =>
          let Q := fresh "Q" in
          set (Q := P);
          unfold test_case, create_diff_image_or_none in H; walk H; tidy;
          subst Q; cbv beta
      end
  end.

(** Membership in an explicit list. *)
Ltac in_list := cbn [In]; repeat first [left; reflexivity | right].

Lemma out_eta {A} (o : out A) : o = Out (result o) (emitted o) (disk o).
Proof. now destruct o. Qed.

(** The renderer leaves every path but its own as it was. *)
Lemma lookup_renderer_leaves_ne (outp : string) (w : option content)
    (fs : gmap string content) (p : string) :
  p <> outp -> renderer_leaves outp w fs !! p = fs !! p.
Proof.
  intros Hp. destruct w; cbn; [|reflexivity].
  apply lookup_insert_ne. congruence.
Qed.

(** What one test case logs: nothing when it raises, one line
    otherwise, and the line names the file as [glob] gave it. *)
Lemma test_case_log (env : Env) (wpt blitz outp : string) (t : Z) (file : string)
    h fs r ev fs' :
  test_case env wpt blitz outp t file h fs = Out r ev fs' ->
  match r with
  | Raise _ => log_lines ev = []
  | Continue => log_lines ev = [(INFO, "SKIP: " +:+ file)]
  | Val _ => log_lines ev = [(INFO, "PASS: " +:+ file)]
             \/ log_lines ev = [(ERROR, "FAIL: " +:+ file)]
  end.
Proof.
  intros H. run_test_case H; cbn [log_lines]; auto.
Qed.

(** The files the loop logs are, in order, the first of the files it
    was given; all of them when it ends without an exception. *)
Lemma test_cases_logged (env : Env) (wpt blitz outp : string) (t : Z)
    (l : list string) h fs r ev fs' :
  for_each l (test_case env wpt blitz outp t) h fs = Out r ev fs' ->
  logged_files ev `prefix_of` l
  /\ ((forall e, r <> Raise e) -> logged_files ev = l).
Proof.
  revert h fs r ev fs'. induction l as [|f l IH]; intros h fs r ev fs' H.
  - injection H as <- <- <-. split; [apply prefix_nil | reflexivity].
  - apply for_each_cons_inv in H.
    destruct H as [(e & Hb & ->) | (r1 & ev1 & fs1 & ev2 & Hb & Hr1 & Hk & ->)].
    + apply test_case_log in Hb. unfold logged_files. rewrite Hb.
      split; [apply prefix_nil | intros Hr; now destruct (Hr e)].
    + apply test_case_log in Hb. apply IH in Hk as [Hpre Hall].
      assert (logged_files ev1 = [f]) as Hf.
      { unfold logged_files.
        destruct r1 as [[]| |e]; [destruct Hb as [Hb | Hb] | | now destruct (Hr1 e)];
          rewrite Hb; reflexivity. }
      rewrite logged_files_app, Hf. split.
      * now apply prefix_cons.
      * intros Hr. cbn. f_equal. auto.
Qed.

(** ** The script on the concrete environments *)

(** Identical screenshots: one PASS line, the two screenshots saved,
    no diff image; the script ends with the [SystemExit] of [quit()]. *)
Example run_pass :
  result (Scenario.run Scenario.env_pass) = Raise SystemExit
  /\ log_lines (emitted (Scenario.run Scenario.env_pass))
     = [(INFO, "PASS: /wpt/css/css-flexbox/foo.html")]
  /\ saved_paths (emitted (Scenario.run Scenario.env_pass))
     = ["out/css/css-flexbox/foo.html-act.png"; "out/css/css-flexbox/foo.html-ref.png"]
  /\ invocations (emitted (Scenario.run Scenario.env_pass))
     = [(Scenario.cargo Scenario.foo_url, Exited 0);
        (Scenario.cargo Scenario.foo_ref_url, Exited 0)].
Proof. repeat split; reflexivity. Qed.

(** A renderer that overruns on the first test: SKIP, then the next. *)
Example run_timeout :
  log_lines (emitted (Scenario.run Scenario.env_timeout))
  = [(INFO, "SKIP: /wpt/css/css-flexbox/foo.html");
     (INFO, "PASS: /wpt/css/css-flexbox/sub/bar.html")]
  /\ List.map snd (invocations (emitted (Scenario.run Scenario.env_timeout)))
     = [TimedOut; Exited 0; Exited 0].
Proof. split; reflexivity. Qed.

(** A test without [link rel=match]: SKIP after one renderer run. *)
Example run_nolink :
  log_lines (emitted (Scenario.run Scenario.env_nolink))
  = [(INFO, "SKIP: /wpt/css/css-flexbox/foo.html");
     (INFO, "PASS: /wpt/css/css-flexbox/sub/bar.html")]
  /\ List.map fst (invocations (emitted (Scenario.run Scenario.env_nolink)))
     = [Scenario.cargo Scenario.foo_url; Scenario.cargo Scenario.bar_url;
        Scenario.cargo Scenario.foo_ref_url].
Proof. split; reflexivity. Qed.

(** ** Properties of the script *)

(** C10: a file that line 80 excludes (its name ends with [-ref.html]
    or [.tentative.html], or its path contains [reference]) leaves no
    trace: the turn of the loop ends with [continue], emits no call (no
    log line, no renderer run, no save) and leaves the disk as it was;
    the loop goes on as if the file had not been listed. *)
Theorem excluded_file_is_silent (env : Env) (wpt blitz outp : string) (t : Z)
    (file : string) (rest : list string) h fs :
  Str.endswith file "-ref.html" = true
  \/ Str.endswith file ".tentative.html" = true
  \/ Str.contains "reference" file = true ->
  loop_body env wpt blitz outp t file h fs = Out Continue [] fs
  /\ for_each (file :: rest) (loop_body env wpt blitz outp t) h fs
     = for_each rest (loop_body env wpt blitz outp t) h fs.
Proof.
  intros Hex.
  assert (excluded file = true) as E.
  { unfold excluded. destruct Hex as [-> | [-> | ->]];
      rewrite ?orb_true_r; reflexivity. }
  assert (loop_body env wpt blitz outp t file h fs = Out Continue [] fs) as Hb.
  { unfold loop_body. now rewrite E. }
  split; [exact Hb|].
  rewrite (for_each_next _ _ _ _ _ _ _ _ Hb) by discriminate.
  now rewrite prepend_nil, app_nil_r.
Qed.

Lemma excluded_file_is_silent_witness :
  Str.endswith Scenario.foo_ref "-ref.html" = true
  /\ loop_body Scenario.env_pass "/wpt" "/blitz" Scenario.output_path 5
       Scenario.foo_ref [] ∅ = Out Continue [] ∅.
Proof.
  split; [reflexivity|].
  apply (excluded_file_is_silent Scenario.env_pass "/wpt" "/blitz"
           Scenario.output_path 5 Scenario.foo_ref [] [] ∅).
  left. reflexivity.
Defined.

(** C7 (amended): a test case that line 80 keeps and that reaches a
    verdict logs exactly one line, classified PASS, FAIL or SKIP, and
    the line carries the file as [glob] returned it (with the [WPT_DIR]
    prefix), not the path relative to [WPT_DIR]; a test case ended by
    an uncaught exception logs nothing. *)
Theorem one_log_line_per_test_case (env : Env) (wpt blitz outp : string) (t : Z)
    (file : string) h fs r ev fs' :
  excluded file = false ->
  loop_body env wpt blitz outp t file h fs = Out r ev fs' ->
  (exists e, r = Raise e /\ log_lines ev = [])
  \/ (exists lvl cls,
        log_lines ev = [(lvl, cls +:+ file)]
        /\ ((r = Val tt /\ lvl = INFO /\ cls = "PASS: ")
            \/ (r = Val tt /\ lvl = ERROR /\ cls = "FAIL: ")
            \/ (r = Continue /\ lvl = INFO /\ cls = "SKIP: "))).
Proof.
  intros Hex H. unfold loop_body in H. rewrite Hex in H.
  apply test_case_log in H. destruct r as [[]| |e].
  - right. destruct H as [H | H].
    + exists INFO, "PASS: ". split; [exact H | tauto].
    + exists ERROR, "FAIL: ". split; [exact H | tauto].
  - right. exists INFO, "SKIP: ". split; [exact H | tauto].
  - left. exists e. split; [reflexivity | exact H].
Qed.

Lemma one_log_line_per_test_case_witness :
  excluded Scenario.foo = false
  /\ log_lines (emitted (Scenario.iteration Scenario.env_fail Scenario.foo))
     = [(ERROR, "FAIL: " +:+ Scenario.foo)].
Proof.
  split; [reflexivity|].
  destruct (one_log_line_per_test_case Scenario.env_fail "/wpt" "/blitz"
              Scenario.output_path 5 Scenario.foo [] ∅ _ _ _
              eq_refl (out_eta _)) as [(e & Hr & _) | (lvl & cls & Hlog & _)].
  - discriminate Hr.
  - reflexivity.
Defined.

(** C7 as stated fails.  On a POSIX host with [WPT_DIR=/wpt] the one
    line logged for [/wpt/css/css-flexbox/foo.html] is
    ["PASS: /wpt/css/css-flexbox/foo.html"], while the relative path is
    [css/css-flexbox/foo.html]; with an empty [WPT_DIR] the relative
    path [../../css/css-flexbox/foo.html] does not even occur in the
    line; and a kept test case whose screenshot cannot be decoded logs
    no line at all. *)
Lemma log_line_is_not_the_relative_path :
  (os_path_relpath Scenario.env_pass Scenario.foo "/wpt" = inr "css/css-flexbox/foo.html"
   /\ log_lines (emitted (Scenario.run Scenario.env_pass))
      = [(INFO, "PASS: /wpt/css/css-flexbox/foo.html")]
   /\ "PASS: /wpt/css/css-flexbox/foo.html" <> "PASS: " +:+ "css/css-flexbox/foo.html")
  /\ (os_path_relpath Scenario.env_rootdir "/css/css-flexbox/foo.html" EmptyString
      = inr "../../css/css-flexbox/foo.html"
      /\ log_lines (emitted (Scenario.run Scenario.env_rootdir))
         = [(INFO, "PASS: /css/css-flexbox/foo.html")]
      /\ Str.contains "../../css/css-flexbox/foo.html" "PASS: /css/css-flexbox/foo.html"
         = false)
  /\ (excluded Scenario.foo = false
      /\ result (Scenario.iteration Scenario.env_garbage Scenario.foo)
         = Raise (OtherError "UnidentifiedImageError")
      /\ log_lines (emitted (Scenario.iteration Scenario.env_garbage Scenario.foo)) = []).
Proof. repeat split; try reflexivity. discriminate. Qed.

(** C3: when a renderer invocation of a test case overruns the timeout
    or exits with a non-zero status, the turn ends with [continue], its
    one log line is the SKIP line of the file (logged last), no
    renderer invocation follows the failed one (no retry), and the loop
    goes on with the files that remain. *)
Theorem render_failure_is_skip (env : Env) (wpt blitz outp : string) (t : Z)
    (file : string) (rest : list string) h fs r ev fs' cmd b :
  loop_body env wpt blitz outp t file h fs = Out r ev fs' ->
  In (cmd, b) (invocations ev) ->
  (b = TimedOut \/ exists code, b = Exited code /\ code <> 0) ->
  r = Continue
  /\ log_lines ev = [(INFO, "SKIP: " +:+ file)]
  /\ last ev = Some (EvLog "taffy-wpt" INFO ("SKIP: " +:+ file))
  /\ last (invocations ev) = Some (cmd, b)
  /\ for_each (file :: rest) (loop_body env wpt blitz outp t) h fs
     = prepend ev (for_each rest (loop_body env wpt blitz outp t) (h ++ ev) fs').
Proof.
  intros H Hin Hb. pose proof H as Hloop. unfold loop_body in H.
  destruct (excluded file).
  { injection H as <- <- <-. destruct Hin. }
  revert Hin Hb Hloop.
  run_test_case H; intros Hin Hb Hloop; cbn [invocations In] in Hin;
    repeat (destruct Hin as [Hin | Hin]; [injection Hin as <- <- |]);
    try contradiction;
    destruct Hb as [Hb | (c & Hb & Hc)]; try discriminate Hb;
    try (injection Hb as <-; congruence);
    (repeat split; [reflexivity.. |]);
    apply (for_each_next _ _ _ _ _ _ _ _ Hloop); discriminate.
Qed.

Lemma render_failure_is_skip_witness :
  In (Scenario.cargo Scenario.foo_url, TimedOut)
     (invocations (emitted (Scenario.iteration Scenario.env_timeout Scenario.foo)))
  /\ result (Scenario.iteration Scenario.env_timeout Scenario.foo) = Continue
  /\ log_lines (emitted (Scenario.iteration Scenario.env_timeout Scenario.foo))
     = [(INFO, "SKIP: " +:+ Scenario.foo)].
Proof.
  assert (In (Scenario.cargo Scenario.foo_url, TimedOut)
            (invocations (emitted (Scenario.iteration Scenario.env_timeout Scenario.foo))))
    as Hin by (left; reflexivity).
  split; [exact Hin|].
  destruct (render_failure_is_skip Scenario.env_timeout "/wpt" "/blitz"
              Scenario.output_path 5 Scenario.foo [Scenario.bar] [] ∅ _ _ _ _ _
              (out_eta _) Hin (or_introl eq_refl)) as (Hr & Hlog & _).
  split; assumption.
Defined.

(** C4 (amended): for a test case whose HTML has no [link] element with
    relation [match], [pixelmatch] is never called and the reference
    page is never rendered.  The turn ends in one of two ways: with
    [continue] and the SKIP line as its one log line, or with an
    uncaught exception of a call before the HTML lookup and no log
    line at all.  Once the HTML has been looked up the turn is a
    SKIP. *)
Theorem missing_match_link_is_skip (env : Env) (wpt blitz outp : string) (t : Z)
    (file : string) h fs r ev fs' :
  excluded file = false ->
  soup_find_link_match env file = inr None ->
  loop_body env wpt blitz outp t file h fs = Out r ev fs' ->
  (forall a b o x, ~ In (EvPixelmatch a b o x) ev)
  /\ reference_commands ev = []
  /\ ((r = Continue /\ log_lines ev = [(INFO, "SKIP: " +:+ file)])
      \/ (exists e,
             r = Raise e /\ log_lines ev = []
             /\ forall x, ~ In (EvSoup file x) ev))
  /\ (In (EvSoup file (inr None)) ev ->
      r = Continue /\ log_lines ev = [(INFO, "SKIP: " +:+ file)]).
Proof.
  intros Hex Hsoup H. unfold loop_body in H. rewrite Hex in H. clear Hex.
  run_test_case H; try congruence;
    (split;
     [ intros ? ? ? ? Hin; cbn [In] in Hin;
       repeat (destruct Hin as [Hin | Hin]; [discriminate Hin|]); exact Hin
     | split;
       [ reflexivity
       | split;
         [ first
             [ left; split; reflexivity
             | right; eexists; split; [reflexivity | split; [reflexivity|]];
               intros ? Hin; cbn [In] in Hin;
               repeat (destruct Hin as [Hin | Hin]; [discriminate Hin|]); exact Hin ]
         | intros Hin; cbn [In] in Hin;
           repeat (destruct Hin as [Hin | Hin]; [try discriminate Hin|]);
           try contradiction; try (split; reflexivity) ] ] ]).
Qed.

Lemma missing_match_link_is_skip_witness :
  excluded Scenario.foo = false
  /\ soup_find_link_match Scenario.env_nolink Scenario.foo = inr None
  /\ result (Scenario.iteration Scenario.env_nolink Scenario.foo) = Continue
  /\ log_lines (emitted (Scenario.iteration Scenario.env_nolink Scenario.foo))
     = [(INFO, "SKIP: " +:+ Scenario.foo)].
Proof.
  split; [reflexivity | split; [reflexivity|]].
  destruct (missing_match_link_is_skip Scenario.env_nolink "/wpt" "/blitz"
              Scenario.output_path 5 Scenario.foo [] ∅ _ _ _
              eq_refl eq_refl (out_eta _)) as (_ & _ & _ & Hskip).
  apply Hskip. vm_compute. tauto.
Defined.

(** C4 as stated fails: a test case without [link rel=match] is not
    always a SKIP.  The renderer leaves something that is not an image
    for [foo.html], which has no such link: [Image.open] raises at line
    99, before the HTML is looked up; the turn ends with that
    exception, and neither it nor the rest of the run logs a line. *)
Lemma linkless_test_can_end_without_skip :
  excluded Scenario.foo = false
  /\ soup_find_link_match Setup.env_nolink_garbage Scenario.foo = inr None
  /\ result (Scenario.iteration Setup.env_nolink_garbage Scenario.foo)
     = Raise (OtherError "UnidentifiedImageError")
  /\ emitted (Scenario.iteration Setup.env_nolink_garbage Scenario.foo)
     = [EvRun (Scenario.cargo Scenario.foo_url) 5 (Exited 0);
        EvMkdirParent "out/css/css-flexbox/foo.html-act.png" None;
        EvOpen Scenario.output_path (inl (OtherError "UnidentifiedImageError"))]
  /\ log_lines (emitted (Scenario.run Setup.env_nolink_garbage)) = [].
Proof. repeat split; reflexivity. Qed.

(** The reference page of a test case whose [link] carries [href]: the
    URL printed and handed to the renderer is the fixed base followed
    by [href]. *)
Lemma reference_command_of_href (env : Env) (wpt blitz outp : string) (t : Z)
    (file : string) h fs r ev fs' tag href :
  loop_body env wpt blitz outp t file h fs = Out r ev fs' ->
  In (EvSoup file (inr (Some tag))) ev ->
  tag_get tag "href" = Some href ->
  In (EvPrint (PStr ("http://localhost:8000/css/css-flexbox/" +:+ href))) ev
  /\ reference_commands ev
     = [["cargo"; "run"; "--release"; "--manifest-path"; blitz +:+ "/Cargo.toml";
         "--example"; "screenshot";
         "http://localhost:8000/css/css-flexbox/" +:+ href]].
Proof.
  intros H Hin Hhref. unfold loop_body in H.
  destruct (excluded file).
  { injection H as <- <- <-. destruct Hin. }
  revert Hin.
  run_test_case H; intros Hin; cbn [In] in Hin;
    repeat (destruct Hin as [Hin | Hin]; [try discriminate Hin|]);
    try contradiction;
    injection Hin as <-; rewrite Hhref in *; simplify_eq;
    (split; [cbn [In]; tauto | reflexivity]).
Qed.

(** C5: once the [link rel=match] of a test case is found, the URL of
    its reference page is the fixed base
    [http://localhost:8000/css/css-flexbox/] followed by the raw [href]
    value: that string is printed and is the URL of the one renderer
    command issued for the reference.  Nothing of the test file enters
    it, so two test cases (in whatever directory) whose links carry the
    same [href] get the same reference command. *)
Theorem reference_url_is_literal_concatenation (env : Env) (wpt blitz outp : string)
    (t : Z) (file1 file2 : string) h1 fs1 r1 ev1 fs1' h2 fs2 r2 ev2 fs2'
    (tag1 tag2 : Tag) (href : string) :
  loop_body env wpt blitz outp t file1 h1 fs1 = Out r1 ev1 fs1' ->
  loop_body env wpt blitz outp t file2 h2 fs2 = Out r2 ev2 fs2' ->
  In (EvSoup file1 (inr (Some tag1))) ev1 ->
  In (EvSoup file2 (inr (Some tag2))) ev2 ->
  tag_get tag1 "href" = Some href ->
  tag_get tag2 "href" = Some href ->
  In (EvPrint (PStr ("http://localhost:8000/css/css-flexbox/" +:+ href))) ev1
  /\ reference_commands ev1
     = [["cargo"; "run"; "--release"; "--manifest-path"; blitz +:+ "/Cargo.toml";
         "--example"; "screenshot";
         "http://localhost:8000/css/css-flexbox/" +:+ href]]
  /\ reference_commands ev2 = reference_commands ev1.
Proof.
  intros H1 H2 Hin1 Hin2 Hh1 Hh2.
  destruct (reference_command_of_href _ _ _ _ _ _ _ _ _ _ _ _ _ H1 Hin1 Hh1) as [Hp1 Hc1].
  destruct (reference_command_of_href _ _ _ _ _ _ _ _ _ _ _ _ _ H2 Hin2 Hh2) as [_ Hc2].
  repeat split; [assumption.. | congruence].
Qed.

Lemma reference_url_is_literal_concatenation_witness :
  (In (EvSoup Scenario.foo (Scenario.link_to "foo-ref.html"))
      (emitted (Scenario.iteration Scenario.env_two Scenario.foo))
   /\ In (EvSoup Scenario.bar (Scenario.link_to "foo-ref.html"))
         (emitted (Scenario.iteration Scenario.env_two Scenario.bar)))
  /\ reference_commands (emitted (Scenario.iteration Scenario.env_two Scenario.foo))
     = [Scenario.cargo Scenario.foo_ref_url]
  /\ reference_commands (emitted (Scenario.iteration Scenario.env_two Scenario.bar))
     = reference_commands (emitted (Scenario.iteration Scenario.env_two Scenario.foo)).
Proof.
  assert (In (EvSoup Scenario.foo (Scenario.link_to "foo-ref.html"))
             (emitted (Scenario.iteration Scenario.env_two Scenario.foo))
          /\ In (EvSoup Scenario.bar (Scenario.link_to "foo-ref.html"))
                (emitted (Scenario.iteration Scenario.env_two Scenario.bar)))
    as [Hfoo Hbar] by (vm_compute; tauto).
  split; [split; assumption|].
  destruct (reference_url_is_literal_concatenation Scenario.env_two "/wpt" "/blitz"
              Scenario.output_path 5 Scenario.foo Scenario.bar
              [] ∅ _ _ _ [] ∅ _ _ _
              [("rel", "match"); ("href", "foo-ref.html")]
              [("rel", "match"); ("href", "foo-ref.html")] "foo-ref.html"
              (out_eta _) (out_eta _) Hfoo Hbar eq_refl eq_refl) as (_ & Hc & Hsame).
  split; assumption.
Defined.

(** The script ends with the exception that ended its loop. *)
Lemma main_ends_as_loop (env : Env) (wpt blitz : string) h fs e ev fs' :
  os_getenv env "WPT_DIR" = Some wpt ->
  os_getenv env "BLITZ_REPO" = Some blitz ->
  mkdir_fault env (h ++ [EvThreadStart wpt 8000; EvRmtree "out"]) "out" = None ->
  for_each (files env wpt)
    (loop_body env wpt blitz (blitz +:+ "/examples/output/localhost800.png") 5)
    (h ++ [EvThreadStart wpt 8000; EvRmtree "out"; EvMakedirs "out" None])
    (filter (fun kv => Str.startswith (fst kv) "out/" = false) fs)
  = Out (Raise e) ev fs' ->
  main env h fs
  = Out (Raise e) ([EvThreadStart wpt 8000; EvRmtree "out"; EvMakedirs "out" None] ++ ev) fs'.
Proof.
  intros Hw Hb Hmk Hloop. unfold main. rewrite Hw, Hb.
  cbv beta iota zeta delta [bind emit shutil_rmtree os_makedirs prepend of_fault].
  rewrite <- !app_assoc. cbn [app]. rewrite Hmk.
  change (h ++ [EvThreadStart wpt 8000; EvRmtree "out"] ++ [EvMakedirs "out" None])
    with (h ++ [EvThreadStart wpt 8000; EvRmtree "out"; EvMakedirs "out" None]).
  change ("out" +:+ "/") with "out/".
  rewrite Hloop. reflexivity.
Qed.

(** C8: the [except] clauses catch the exception of a renderer run
    that overran or exited with a non-zero status, and nothing else:
    such a call ends the turn with the SKIP line; the exception of any
    other call (the renderer that cannot be started, [mkdir],
    [Image.open] on a missing or malformed file, [save], reading or
    parsing the HTML, [pixelmatch]), of [os.path.relpath] or of
    [tag["href"]] is the outcome of the turn, and then of the whole
    loop: the files that remain are not looked at.  A turn ends with
    [continue] only for an excluded file, a missing [link] or a caught
    renderer failure. *)
Theorem unhandled_errors_abort_the_run (env : Env) (wpt blitz outp : string) (t : Z)
    (file : string) (rest : list string) h fs r ev fs' :
  loop_body env wpt blitz outp t file h fs = Out r ev fs' ->
  (forall call x, In call ev -> raised call = Some x ->
     if handled call
     then r = Continue /\ log_lines ev = [(INFO, "SKIP: " +:+ file)]
     else r = Raise x)
  /\ (forall x, excluded file = false -> os_path_relpath env file wpt = inl x ->
        r = Raise x)
  /\ (forall tag, In (EvSoup file (inr (Some tag))) ev -> tag_get tag "href" = None ->
        r = Raise (OtherError "KeyError"))
  /\ (r = Continue ->
      excluded file = true \/ In (EvSoup file (inr None)) ev
      \/ exists call, In call ev /\ handled call = true)
  /\ (forall x, r = Raise x ->
        for_each (file :: rest) (loop_body env wpt blitz outp t) h fs
        = Out (Raise x) ev fs').
Proof.
  intros H.
  assert (forall x, r = Raise x ->
            for_each (file :: rest) (loop_body env wpt blitz outp t) h fs
            = Out (Raise x) ev fs') as Hloop.
  { intros x ->. now apply for_each_raise. }
  revert Hloop. unfold loop_body in H. destruct (excluded file) eqn:Hex.
  { injection H as <- <- <-. intros Hloop.
    repeat split; try (intros; contradiction); try discriminate; try assumption.
    intros _. now left. }
  run_test_case H; intros Hloop;
    repeat match goal with
           | Hc : ?c <> 0 |- _ =>
               apply Z.eqb_neq in Hc
           end;
    (split; [| split; [| split; [| split; [| exact Hloop]]]]).
  all: try (intros call y Hin Hraised; cbn [In] in Hin;
            repeat (destruct Hin as [<- | Hin]; [cbn in Hraised |]);
            try contradiction; try discriminate Hraised;
            repeat match goal with
                   | Hc : (?c =? 0) = false |- _ => rewrite Hc in *
                   end;
            try discriminate Hraised; injection Hraised as <-; cbn;
            repeat match goal with
                   | Hc : (?c =? 0) = false |- _ => rewrite Hc in *
                   end;
            cbn; try (split; reflexivity); reflexivity).
  all: try (intros y _ Hrel; congruence).
  all: try (intros tg Hin Hnone; cbn [In] in Hin;
            repeat (destruct Hin as [Hin | Hin]; [try discriminate Hin |]);
            try contradiction; injection Hin as <-; congruence).
  all: try discriminate.
  all: intros _; right;
    first [ left; solve [in_list]
          | right;
            lazymatch goal with
            | |- context [EvRun ?c ?d TimedOut] => exists (EvRun c d TimedOut)
            | Hc : (?k =? 0) = false |- context [EvRun ?c ?d (Exited ?k)] =>
                exists (EvRun c d (Exited k))
            end;
            split; [solve [in_list] | cbn; rewrite ?Z.eqb_refl;
                                      repeat match goal with
                                             | Hc : (?c =? 0) = false |- _ => rewrite Hc
                                             end; reflexivity] ].
Qed.

Lemma unhandled_errors_abort_the_run_witness :
  result (Scenario.iteration Scenario.env_garbage Scenario.foo)
  = Raise (OtherError "UnidentifiedImageError")
  /\ result (Scenario.run Scenario.env_garbage)
     = Raise (OtherError "UnidentifiedImageError")
  /\ log_lines (emitted (Scenario.run Scenario.env_garbage)) = []
  /\ for_each [Scenario.foo; Scenario.bar]
       (loop_body Scenario.env_garbage "/wpt" "/blitz" Scenario.output_path 5) [] ∅
     = Out (Raise (OtherError "UnidentifiedImageError"))
         (emitted (Scenario.iteration Scenario.env_garbage Scenario.foo))
         (disk (Scenario.iteration Scenario.env_garbage Scenario.foo)).
Proof.
  do 3 (split; [reflexivity|]).
  destruct (unhandled_errors_abort_the_run Scenario.env_garbage "/wpt" "/blitz"
              Scenario.output_path 5 Scenario.foo [Scenario.bar] [] ∅ _ _ _
              (out_eta _)) as (_ & _ & _ & _ & Hloop).
  apply Hloop. reflexivity.
Defined.

(** C9: a test case skipped because its HTML has no [link rel=match]
    has, by the time the SKIP line is logged, run the renderer on the
    test page and saved the screenshot under [out/<relpath>-act.png];
    the file is on disk when the turn ends.  Nothing else was saved:
    apart from that path and the renderer's own output file the disk is
    as the turn found it, in particular at the names of the reference
    screenshot and of the diff image. *)
Theorem skipped_for_missing_link_keeps_actual (env : Env) (wpt blitz outp : string)
    (t : Z) (file : string) h fs r ev fs' :
  loop_body env wpt blitz outp t file h fs = Out r ev fs' ->
  In (EvSoup file (inr None)) ev ->
  exists rel img,
    os_path_relpath env file wpt = inr rel
    /\ r = Continue
    /\ ev = [EvRun ["cargo"; "run"; "--release"; "--manifest-path";
                    blitz +:+ "/Cargo.toml"; "--example"; "screenshot";
                    "http://localhost:8000/" +:+ rel] t (Exited 0);
             EvMkdirParent ("out/" +:+ rel +:+ "-act.png") None;
             EvOpen outp (inr img);
             EvSave ("out/" +:+ rel +:+ "-act.png") img None;
             EvOpen ("out/" +:+ rel +:+ "-act.png") (inr img);
             EvSoup file (inr None);
             EvLog "taffy-wpt" INFO ("SKIP: " +:+ file)]
    /\ fs' !! ("out/" +:+ rel +:+ "-act.png") = Some (Png img)
    /\ (forall p, p <> "out/" +:+ rel +:+ "-act.png" -> p <> outp -> fs' !! p = fs !! p)
    /\ "out/" +:+ rel +:+ "-ref.png" <> "out/" +:+ rel +:+ "-act.png"
    /\ "out/" +:+ Str.replace rel backslash "_" +:+ "-diff.png"
       <> "out/" +:+ rel +:+ "-act.png".
Proof.
  intros H Hin. unfold loop_body in H.
  destruct (excluded file).
  { injection H as <- <- <-. destruct Hin. }
  revert Hin.
  run_test_case H; intros Hin; cbn [In] in Hin;
    repeat (destruct Hin as [Hin | Hin]; [try discriminate Hin|]);
    try contradiction.
  eexists _, _. do 3 (split; [reflexivity|]).
  split; [apply lookup_insert_eq|]. split.
  - intros p Hact Hout. rewrite lookup_insert_ne by congruence.
    now apply lookup_renderer_leaves_ne.
  - split; [intros E; symmetry in E; now apply act_is_not_ref in E
           | intros E; symmetry in E; now apply act_is_not_diff in E].
Qed.

Lemma skipped_for_missing_link_keeps_actual_witness :
  In (EvSoup Scenario.foo (inr None))
     (emitted (Scenario.iteration Scenario.env_nolink Scenario.foo))
  /\ disk (Scenario.iteration Scenario.env_nolink Scenario.foo)
       !! "out/css/css-flexbox/foo.html-act.png" = Some (Png Scenario.shot_a)
  /\ disk (Scenario.iteration Scenario.env_nolink Scenario.foo)
       !! "out/css/css-flexbox/foo.html-ref.png" = None.
Proof.
  assert (In (EvSoup Scenario.foo (inr None))
            (emitted (Scenario.iteration Scenario.env_nolink Scenario.foo)))
    as Hin by (vm_compute; tauto).
  split; [exact Hin|].
  destruct (skipped_for_missing_link_keeps_actual Scenario.env_nolink "/wpt" "/blitz"
              Scenario.output_path 5 Scenario.foo [] ∅ _ _ _ (out_eta _) Hin)
    as (rel & img & Hrel & _ & Hev & Hact & Hrest & _).
  injection Hrel as <-.
  assert (img = Scenario.shot_a) as ->.
  { apply (f_equal (fun l => nth 3 l (EvRmtree EmptyString))) in Hev.
    vm_compute in Hev. now injection Hev. }
  split; [exact Hact|].
  rewrite Hrest; [reflexivity | discriminate | discriminate].
Defined.

(** *** The pixel counter of the concrete environments *)

Lemma rgba_eqb_refl (p : RGBA) : Scenario.rgba_eqb p p = true.
Proof. destruct p as [[[r g] b] a]. cbn. now rewrite !Z.eqb_refl. Qed.

Lemma mask_count (p1 p2 out : list RGBA) : 0 <= fst (Scenario.mask p1 p2 out).
Proof.
  revert p2 out. induction p1 as [|a p1 IH]; intros [|b p2] [|o out]; cbn; try lia.
  specialize (IH p2 out). destruct (Scenario.rgba_eqb a b); cbn; lia.
Qed.

Lemma mask_same (p out : list RGBA) : fst (Scenario.mask p p out) = 0.
Proof.
  revert out. induction p as [|a p IH]; intros [|o out]; cbn; try reflexivity.
  rewrite rgba_eqb_refl. cbn. apply IH.
Qed.

Lemma posix_pixelmatch_contract cwd vars l renders soups :
  pixelmatch_contract (Scenario.posix_env cwd vars l renders soups).
Proof.
  intros a b output opts n d. cbn. unfold Scenario.count_pixelmatch.
  destruct (Scenario.same_size a b && Scenario.same_size a output); [|discriminate].
  intros [= <- <-]. split; [apply mask_count | intros ->; apply mask_same].
Qed.

(** *** The comparison *)

Lemma create_diff_image_or_none_spec (env : Env) (a b : Image) h fs (n : Z) (d : Image) :
  pixelmatch env a b (Image_new (size a)) (mkOpts 0 true true) = inr (n, d) ->
  0 <= n ->
  create_diff_image_or_none env a b h fs
  = Out (Val (if n =? 0 then None else Some d))
      [EvPixelmatch a b (mkOpts 0 true true) (inr (n, d))] fs.
Proof.
  intros Hpm Hn. unfold create_diff_image_or_none, bind, call_pixelmatch. rewrite Hpm.
  cbn. destruct (Z.leb_spec n 0), (Z.eqb_spec n 0); try lia; reflexivity.
Qed.

(** C6 fails on a POSIX host: [os.path.relpath] separates with [/],
    line 137 replaces the backslash only, and the diff image of
    [/wpt/css/css-flexbox/foo.html] is saved two directories below
    [out], at [out/css/css-flexbox/foo.html-diff.png]; nothing is
    written at [out/css_css-flexbox_foo.html-diff.png].  A relative
    path separated by backslashes is flattened as the claim says. *)
Theorem posix_diff_artifact_is_nested :
  os_path_relpath Scenario.env_fail Scenario.foo "/wpt" = inr "css/css-flexbox/foo.html"
  /\ Str.replace "css/css-flexbox/foo.html" backslash "_" = "css/css-flexbox/foo.html"
  /\ log_lines (emitted (Scenario.run Scenario.env_fail))
     = [(ERROR, "FAIL: /wpt/css/css-flexbox/foo.html")]
  /\ saved_paths (emitted (Scenario.run Scenario.env_fail))
     = ["out/css/css-flexbox/foo.html-act.png"; "out/css/css-flexbox/foo.html-ref.png";
        "out/css/css-flexbox/foo.html-diff.png"]
  /\ disk (Scenario.run Scenario.env_fail) !! "out/css_css-flexbox_foo.html-diff.png"
     = None
  /\ is_Some (disk (Scenario.run Scenario.env_fail)
                !! "out/css/css-flexbox/foo.html-diff.png")
  /\ Str.replace ("css" +:+ backslash +:+ "css-flexbox" +:+ backslash +:+ "foo.html")
       backslash "_"
     = "css_css-flexbox_foo.html".
Proof.
  repeat split; try reflexivity. vm_compute. eauto.
Qed.

(** ** More facts about one test case *)


Lemma invocations_app (ev1 ev2 : list event) :
  invocations (ev1 ++ ev2) = invocations ev1 ++ invocations ev2.
Proof.
  induction ev1 as [|e ev1 IH]; [reflexivity|].
  destruct e; cbn; rewrite ?IH; reflexivity.
Qed.

Lemma artifact_names (rel : string) :
  is_artifact (actual_out_path rel) = true
  /\ is_artifact (expected_out_path rel) = true
  /\ is_artifact (diff_output_path rel) = true.
Proof.
  unfold is_artifact, actual_out_path, expected_out_path, diff_output_path.
  rewrite !endswith_artifact. repeat split; reflexivity.
Qed.

(** The renderer's output file is none of the artifacts. *)
Lemma renderer_output_is_no_artifact (blitz : string) :
  is_artifact (renderer_output blitz) = false.
Proof.
  unfold is_artifact, renderer_output. rewrite !endswith_app.
  cbn. apply andb_false_r.
Qed.

Lemma artifact_is_not_renderer_output (blitz p : string) :
  is_artifact p = true -> p <> renderer_output blitz.
Proof.
  intros H ->. rewrite renderer_output_is_no_artifact in H. discriminate H.
Qed.

(** The disk after one test case: where it saved and what it left
    alone. *)
Lemma test_case_disk (env : Env) (wpt blitz outp : string) (t : Z) (file : string)
    h fs r ev fs' :
  test_case env wpt blitz outp t file h fs = Out r ev fs' ->
  (forall e, os_path_relpath env file wpt = inl e -> ev = [])
  /\ (forall rel, os_path_relpath env file wpt = inr rel ->
        saved_paths ev `prefix_of`
          [actual_out_path rel; expected_out_path rel; diff_output_path rel]
        /\ (log_lines ev = [(INFO, "SKIP: " +:+ file)] ->
            saved_paths ev `prefix_of` [actual_out_path rel])
        /\ (log_lines ev = [(INFO, "PASS: " +:+ file)] ->
            saved_paths ev = [actual_out_path rel; expected_out_path rel])
        /\ (log_lines ev = [(ERROR, "FAIL: " +:+ file)] ->
            saved_paths ev
            = [actual_out_path rel; expected_out_path rel; diff_output_path rel]))
  /\ (forall p, p <> outp -> ~ In p (saved_paths ev) -> fs' !! p = fs !! p)
  /\ (forall p, p <> outp -> In p (saved_paths ev) -> is_Some (fs' !! p)).
Proof.
  intros H. unfold actual_out_path, expected_out_path, diff_output_path.
  run_test_case H; cbn [saved_paths log_lines].
  all: split; [intros ? ?; first [discriminate | reflexivity] |].
  all: split;
    [ intros ? Hrel;
      first
        [ discriminate Hrel
        | injection Hrel as <-; split;
          [ eexists; reflexivity
          | split; [| split]; intros Hl;
            cbv beta iota delta [String.append] in Hl;
            try discriminate Hl; try reflexivity; eexists; reflexivity ] ]
    | ].
  all: split;
    [ intros p Hout Hns; cbn [In] in Hns;
      repeat first
        [ rewrite lookup_renderer_leaves_ne by assumption
        | rewrite lookup_insert_ne by (intros E; apply Hns; auto 6) ];
      reflexivity
    | intros p Hout Hin; cbn [In] in Hin;
      repeat match goal with
             | |- is_Some (<[?k:=_]> _ !! p) =>
                 destruct (decide (k = p)) as [-> | ?];
                 [ rewrite lookup_insert_eq; eauto | rewrite lookup_insert_ne by assumption ]
             | |- is_Some (renderer_leaves _ _ _ !! p) =>
                 rewrite lookup_renderer_leaves_ne by assumption
             end;
      try (exfalso; intuition congruence) ].
Qed.


(** The loop ends normally or with an exception, never with
    [continue]. *)
Lemma for_each_result {A} (l : list A) (body : A -> M unit) h fs r ev fs' :
  for_each l body h fs = Out r ev fs' -> r = Val tt \/ exists e, r = Raise e.
Proof.
  revert h fs r ev fs'. induction l as [|x l IH]; intros h fs r ev fs' H.
  - injection H as <- <- <-. now left.
  - apply for_each_cons_inv in H.
    destruct H as [(e & _ & ->) | (r1 & ev1 & fs1 & ev2 & _ & _ & Hk & _)]; eauto.
Qed.


(** ** The whole script *)

(** With both variables set, [main] starts the server thread, empties
    [out], and either fails to make [out] again or runs the loop and
    ends with the loop's exception or with [quit()]. *)
Lemma main_outcome (env : Env) (wpt blitz : string) h fs r ev fs' :
  os_getenv env "WPT_DIR" = Some wpt ->
  os_getenv env "BLITZ_REPO" = Some blitz ->
  main env h fs = Out r ev fs' ->
  (exists e,
      mkdir_fault env (h ++ [EvThreadStart wpt 8000; EvRmtree "out"]) "out" = Some e
      /\ r = Raise e
      /\ ev = [EvThreadStart wpt 8000; EvRmtree "out"; EvMakedirs "out" (Some e)]
      /\ fs' = cleared fs)
  \/ (exists r0 ev0,
         mkdir_fault env (h ++ [EvThreadStart wpt 8000; EvRmtree "out"]) "out" = None
         /\ for_each (files env wpt) (loop_body env wpt blitz (renderer_output blitz) 5)
              (h ++ startup wpt) (cleared fs)
            = Out r0 ev0 fs'
         /\ ev = startup wpt ++ ev0
         /\ ((r0 = Val tt /\ r = Raise SystemExit) \/ exists e, r0 = Raise e /\ r = Raise e)).
Proof.
  intros Hw Hb. unfold main. rewrite Hw, Hb.
  cbv beta iota zeta delta [bind emit shutil_rmtree os_makedirs prepend of_fault quit raise].
  rewrite <- !app_assoc. cbn [app].
  change ("out" +:+ "/") with "out/".
  change (filter (fun kv => Str.startswith kv.1 "out/" = false) fs) with (cleared fs).
  destruct (mkdir_fault env (h ++ [EvThreadStart wpt 8000; EvRmtree "out"]) "out")
    as [e|] eqn:Hmk.
  - intros [= <- <- <-]. left. exists e. auto.
  - change (h ++ [EvThreadStart wpt 8000; EvRmtree "out"; EvMakedirs "out" None])
      with (h ++ startup wpt).
    change (blitz +:+ "/examples/output/localhost800.png") with (renderer_output blitz).
    destruct (for_each (files env wpt)
                (loop_body env wpt blitz (renderer_output blitz) 5)
                (h ++ startup wpt) (cleared fs)) as [r0 ev0 fs0] eqn:Hloop.
    destruct (for_each_result _ _ _ _ _ _ _ Hloop) as [-> | (e & ->)];
      cbn; rewrite ?app_nil_r; intros [= <- <- <-]; right;
      eexists _, ev0; repeat split; eauto.
Qed.

(** ** The enumerator *)

(** A loop that an exception ended has logged fewer files than it was
    given: the test case that raised and those after it log nothing. *)
Lemma aborted_loop_logs_fewer (env : Env) (wpt blitz outp : string) (t : Z)
    (l : list string) h fs e ev fs' :
  for_each l (test_case env wpt blitz outp t) h fs = Out (Raise e) ev fs' ->
  (length (logged_files ev) < length l)%nat.
Proof.
  revert h fs ev fs'. induction l as [|f l IH]; intros h fs ev fs' H.
  - discriminate H.
  - apply for_each_cons_inv in H.
    destruct H as [(e' & Hb & _) | (r1 & ev1 & fs1 & ev2 & Hb & Hr1 & Hk & ->)].
    + apply test_case_log in Hb. unfold logged_files. rewrite Hb. cbn. lia.
    + apply test_case_log in Hb. apply IH in Hk.
      assert (logged_files ev1 = [f]) as Hf.
      { unfold logged_files.
        destruct r1 as [[]| |e1]; [destruct Hb as [Hb | Hb] | | now destruct (Hr1 e1)];
          rewrite Hb; reflexivity. }
      rewrite logged_files_app, Hf. cbn. lia.
Qed.

(** The filter of line 80 and the pattern of line 73 select the
    primary test cases of the specification. *)
Lemma kept_files_are_the_primary_tests (env : Env) (wpt : string) :
  kept (files env wpt) = spec_primary_tests env wpt.
Proof. reflexivity. Qed.

(** C2 (amended): [main] runs the test-case body over the primary test
    cases of the specification and over nothing else: the matches of
    [<WPT_DIR>/css/css-flexbox/**/*.html], in the order of [glob],
    without those whose name ends with [-ref.html] or
    [.tentative.html] or whose path contains [reference]; such a match
    is never selected and no line is logged for it.  The files that
    reach a verdict are always the first of the primary test cases,
    once for each match and in order; they are all of them when no
    uncaught exception ends the loop, and fewer when one does, which
    also ends the script. *)
Theorem enumerator_visits_kept_matches (env : Env) (wpt blitz : string)
    h fs r ev fs' :
  os_getenv env "WPT_DIR" = Some wpt ->
  os_getenv env "BLITZ_REPO" = Some blitz ->
  main env h fs = Out r ev fs' ->
  (forall f,
      Str.endswith f "-ref.html" = true
      \/ Str.endswith f ".tentative.html" = true
      \/ Str.contains "reference" f = true ->
      ~ In f (spec_primary_tests env wpt) /\ ~ In f (logged_files ev))
  /\ logged_files ev `prefix_of` spec_primary_tests env wpt
  /\ exists mk ev0,
       ev = EvThreadStart wpt 8000 :: EvRmtree "out" :: EvMakedirs "out" mk :: ev0
       /\ match mk with
          | Some e => r = Raise e /\ ev0 = []
          | None =>
              exists r0,
                for_each (spec_primary_tests env wpt)
                  (test_case env wpt blitz (renderer_output blitz) 5)
                  (h ++ startup wpt) (cleared fs)
                = Out r0 ev0 fs'
                /\ ((forall e, r0 <> Raise e) ->
                    r = Raise SystemExit
                    /\ logged_files ev = spec_primary_tests env wpt)
                /\ (forall e, r0 = Raise e ->
                    r = Raise e
                    /\ (length (logged_files ev)
                        < length (spec_primary_tests env wpt))%nat)
          end.
Proof.
  intros Hw Hb H.
  assert (forall f,
             Str.endswith f "-ref.html" = true
             \/ Str.endswith f ".tentative.html" = true
             \/ Str.contains "reference" f = true ->
             ~ In f (spec_primary_tests env wpt)) as Hout.
  { intros f Hex Hin. unfold spec_primary_tests in Hin.
    apply List.filter_In in Hin as [_ Hin].
    unfold spec_excludes in Hin. destruct Hex as [E | [E | E]]; rewrite E in Hin;
      rewrite ?orb_true_r in Hin; discriminate Hin. }
  assert (logged_files ev `prefix_of` spec_primary_tests env wpt
          /\ exists mk ev0,
               ev = EvThreadStart wpt 8000 :: EvRmtree "out" :: EvMakedirs "out" mk :: ev0
               /\ match mk with
                  | Some e => r = Raise e /\ ev0 = []
                  | None =>
                      exists r0,
                        for_each (spec_primary_tests env wpt)
                          (test_case env wpt blitz (renderer_output blitz) 5)
                          (h ++ startup wpt) (cleared fs)
                        = Out r0 ev0 fs'
                        /\ ((forall e, r0 <> Raise e) ->
                            r = Raise SystemExit
                            /\ logged_files ev = spec_primary_tests env wpt)
                        /\ (forall e, r0 = Raise e ->
                            r = Raise e
                            /\ (length (logged_files ev)
                                < length (spec_primary_tests env wpt))%nat)
                  end) as [Hpre Hrun].
  { destruct (main_outcome _ _ _ _ _ _ _ _ Hw Hb H)
      as [(e & _ & -> & -> & _) | (r0 & ev0 & _ & Hloop & -> & Hr)].
    - split; [apply prefix_nil|]. exists (Some e), []. auto.
    - rewrite loop_is_filtered, kept_files_are_the_primary_tests in Hloop.
      change (logged_files (startup wpt ++ ev0)) with (logged_files ev0).
      destruct (test_cases_logged _ _ _ _ _ _ _ _ _ _ _ Hloop) as [Hpre Hall].
      split; [exact Hpre|]. exists None, ev0. split; [reflexivity|].
      exists r0. split; [exact Hloop|]. split.
      + intros Hne. split; [|now apply Hall].
        destruct Hr as [[_ ->] | (e & -> & _)]; [reflexivity | now destruct (Hne e)].
      + intros e ->. split.
        * destruct Hr as [[Hv _] | (e' & He & ->)]; [discriminate Hv | congruence].
        * eapply aborted_loop_logs_fewer, Hloop. }
  split; [|split; assumption].
  intros f Hex. split; [now apply Hout|].
  intros Hin. apply (Hout f Hex). destruct Hpre as [k ->]. apply List.in_or_app. now left.
Qed.

Lemma enumerator_visits_kept_matches_witness :
  (os_getenv Scenario.env_timeout "WPT_DIR" = Some "/wpt"
   /\ os_getenv Scenario.env_timeout "BLITZ_REPO" = Some "/blitz")
  /\ spec_primary_tests Scenario.env_timeout "/wpt" = [Scenario.foo; Scenario.bar]
  /\ logged_files (emitted (Scenario.run Scenario.env_timeout))
     = [Scenario.foo; Scenario.bar].
Proof.
  split; [split; reflexivity | split; [reflexivity|]].
  destruct (enumerator_visits_kept_matches Scenario.env_timeout "/wpt" "/blitz" [] ∅
              _ _ _ eq_refl eq_refl (out_eta _))
    as (_ & _ & mk & ev0 & Hev & Hrun).
  assert (mk = None) as -> by (vm_compute in Hev; congruence).
  destruct Hrun as (r0 & Hloop & Hall & _).
  apply Hall. intros e He. rewrite He in Hloop.
  apply (f_equal result) in Hloop. vm_compute in Hloop. discriminate Hloop.
Defined.

(** C2 as stated fails: a primary test case is not always visited.
    The renderer leaves something that is not an image for [foo.html];
    [Image.open] raises, no clause catches it, and the script ends
    there.  [bar.html] matches the pattern and is not excluded, yet the
    renderer is never run for it and no line is logged for it. *)
Lemma primary_test_after_an_abort_is_not_visited :
  spec_primary_tests Scenario.env_garbage "/wpt" = [Scenario.foo; Scenario.bar]
  /\ spec_excludes Scenario.bar = false
  /\ result (Scenario.run Scenario.env_garbage)
     = Raise (OtherError "UnidentifiedImageError")
  /\ emitted (Scenario.run Scenario.env_garbage)
     = [EvThreadStart "/wpt" 8000; EvRmtree "out"; EvMakedirs "out" None;
        EvRun (Scenario.cargo Scenario.foo_url) 5 (Exited 0);
        EvMkdirParent "out/css/css-flexbox/foo.html-act.png" None;
        EvOpen Scenario.output_path (inl (OtherError "UnidentifiedImageError"))]
  /\ logged_files (emitted (Scenario.run Scenario.env_garbage)) = [].
Proof. repeat split; reflexivity. Qed.

(** ** Further properties of the script *)

(** X1: when [WPT_DIR] or [BLITZ_REPO] is not set, [main] logs the
    error of the missing variable on the root logger and ends with the
    [SystemExit] of [quit()]: no thread is started, [out] is not
    touched, the renderer is not run.  [WPT_DIR] is looked up first. *)
Theorem missing_variable_stops_main (env : Env) h fs :
  os_getenv env "WPT_DIR" = None \/ os_getenv env "BLITZ_REPO" = None ->
  exists name,
    main env h fs
    = Out (Raise SystemExit)
        [EvLog "root" ERROR (name +:+ " environment variable is not set")] fs
    /\ (os_getenv env "WPT_DIR" = None -> name = "WPT_DIR")
    /\ (os_getenv env "WPT_DIR" <> None -> name = "BLITZ_REPO").
Proof.
  intros Hmiss. unfold main.
  destruct (os_getenv env "WPT_DIR") as [wpt|].
  - destruct (os_getenv env "BLITZ_REPO") as [blitz|].
    + destruct Hmiss as [Hmiss | Hmiss]; discriminate Hmiss.
    + exists "BLITZ_REPO".
      split; [reflexivity | split; [discriminate | intros _; reflexivity]].
  - exists "WPT_DIR".
    split; [reflexivity | split; [intros _; reflexivity | intros Hne; now destruct Hne]].
Qed.

Lemma missing_variable_stops_main_witness :
  os_getenv Setup.env_unset "WPT_DIR" = None
  /\ emitted (main Setup.env_unset [] Setup.old_disk)
     = [EvLog "root" ERROR "WPT_DIR environment variable is not set"].
Proof.
  split; [reflexivity|].
  destruct (missing_variable_stops_main Setup.env_unset [] Setup.old_disk
              (or_introl eq_refl)) as (name & Hmain & Hname & _).
  rewrite Hmain, (Hname eq_refl). reflexivity.
Defined.

(** X2: [main] never returns normally: it ends with the [SystemExit]
    of a [quit()] or with the exception that ended its loop or its
    start-up. *)
Theorem main_ends_by_exception (env : Env) h fs :
  exists e, result (main env h fs) = Raise e.
Proof.
  destruct (os_getenv env "WPT_DIR") as [wpt|] eqn:Hw;
    [destruct (os_getenv env "BLITZ_REPO") as [blitz|] eqn:Hb |].
  - destruct (main_outcome env wpt blitz h fs _ _ _ Hw Hb (out_eta _))
      as [(e & _ & -> & _) | (r0 & ev0 & _ & _ & _ & [[_ ->] | (e & _ & ->)])]; eauto.
  - unfold main. rewrite Hw, Hb. now exists SystemExit.
  - unfold main. rewrite Hw. now exists SystemExit.
Qed.







(** X8: what a test case saves follows its verdict: a PASS has saved
    the actual and the reference screenshot and nothing else, a FAIL
    these two and then the diff image, a SKIP at most the actual
    screenshot; whatever happens, the saves are the first of these
    three, in this order. *)
Theorem artifacts_follow_verdict (env : Env) (wpt blitz outp : string) (t : Z)
    (file rel : string) h fs r ev fs' :
  excluded file = false ->
  os_path_relpath env file wpt = inr rel ->
  loop_body env wpt blitz outp t file h fs = Out r ev fs' ->
  saved_paths ev `prefix_of`
    [actual_out_path rel; expected_out_path rel; diff_output_path rel]
  /\ (log_lines ev = [(INFO, "SKIP: " +:+ file)] ->
      saved_paths ev `prefix_of` [actual_out_path rel])
  /\ (log_lines ev = [(INFO, "PASS: " +:+ file)] ->
      saved_paths ev = [actual_out_path rel; expected_out_path rel])
  /\ (log_lines ev = [(ERROR, "FAIL: " +:+ file)] ->
      saved_paths ev
      = [actual_out_path rel; expected_out_path rel; diff_output_path rel]).
Proof.
  intros Hex Hrel H. unfold loop_body in H. rewrite Hex in H.
  apply test_case_disk in H as (_ & Hok & _). now apply Hok.
Qed.

Lemma artifacts_follow_verdict_witness :
  (excluded Scenario.foo = false
   /\ log_lines (emitted (Scenario.iteration Scenario.env_nolink Scenario.foo))
      = [(INFO, "SKIP: " +:+ Scenario.foo)])
  /\ saved_paths (emitted (Scenario.iteration Scenario.env_nolink Scenario.foo))
     `prefix_of` [actual_out_path "css/css-flexbox/foo.html"].
Proof.
  split; [split; reflexivity|].
  destruct (artifacts_follow_verdict Scenario.env_nolink "/wpt" "/blitz"
              Scenario.output_path 5 Scenario.foo "css/css-flexbox/foo.html" [] ∅ _ _ _
              eq_refl eq_refl (out_eta _)) as (_ & Hskip & _).
  apply Hskip. reflexivity.
Defined.

(** The renderer runs of one test case. *)
Lemma test_case_invocations (env : Env) (wpt blitz outp : string) (t : Z)
    (file : string) h fs r ev fs' :
  test_case env wpt blitz outp t file h fs = Out r ev fs' ->
  Forall (issued_by_loop blitz t) ev
  /\ (forall e, os_path_relpath env file wpt = inl e -> invocations ev = [])
  /\ (forall rel, os_path_relpath env file wpt = inr rel ->
        (exists b, invocations ev = [(cargo_command blitz (test_url rel), b)])
        \/ (exists href b,
               invocations ev
               = [(cargo_command blitz (test_url rel), Exited 0);
                  (cargo_command blitz (reference_url href), b)])).
Proof.
  intros H. unfold issued_by_loop, cargo_command, test_url, reference_url.
  run_test_case H; cbn [invocations].
  all: split;
    [ repeat (constructor;
              [cbv beta iota;
               first [exact I | split; [reflexivity | eexists; reflexivity]] |]);
      constructor
    | split;
      [ intros ? Hrel; first [discriminate Hrel | reflexivity]
      | intros ? Hrel; first [discriminate Hrel | injection Hrel as <-];
        first [left; eexists; reflexivity | right; eexists _, _; reflexivity] ] ].
Qed.

Lemma turn_invocations (env : Env) (wpt blitz outp : string) (t : Z)
    (file : string) h fs r ev fs' :
  loop_body env wpt blitz outp t file h fs = Out r ev fs' ->
  Forall (issued_by_loop blitz t) ev
  /\ (length (invocations ev) <= if excluded file then 0 else 2)%nat.
Proof.
  unfold loop_body. destruct (excluded file).
  { intros [= <- <- <-]. split; [constructor | reflexivity]. }
  intros H. apply test_case_invocations in H as (Hall & Hfail & Hok).
  split; [exact Hall|].
  destruct (os_path_relpath env file wpt) as [e | rel].
  - rewrite (Hfail e eq_refl). cbn. lia.
  - destruct (Hok rel eq_refl) as [(b & ->) | (href & b & ->)]; cbn; lia.
Qed.

Lemma loop_invocations (env : Env) (wpt blitz outp : string) (t : Z) (l : list string)
    h fs r ev fs' :
  for_each l (loop_body env wpt blitz outp t) h fs = Out r ev fs' ->
  Forall (issued_by_loop blitz t) ev
  /\ (length (invocations ev) <= 2 * length (kept l))%nat.
Proof.
  revert h fs r ev fs'. induction l as [|f l IH]; intros h fs r ev fs' H.
  - injection H as <- <- <-. split; [constructor | cbn; lia].
  - assert (length (kept (f :: l))
            = ((if excluded f then 0 else 1) + length (kept l))%nat) as Hk.
    { unfold kept. cbn [List.filter]. now destruct (excluded f). }
    apply for_each_cons_inv in H.
    destruct H as [(e & Hb & ->) | (r1 & ev1 & fs1 & ev2 & Hb & _ & Hrest & ->)].
    + apply turn_invocations in Hb as [Hall Hlen]. split; [exact Hall|].
      rewrite Hk. destruct (excluded f); lia.
    + apply turn_invocations in Hb as [Hall1 Hlen1].
      apply IH in Hrest as [Hall2 Hlen2]. split.
      * apply Forall_app. now split.
      * rewrite invocations_app, length_app, Hk. destruct (excluded f); lia.
Qed.

(** X9: a test case runs the renderer once or twice, never more.  The
    first run is [cargo run --release --manifest-path
    <BLITZ_REPO>/Cargo.toml --example screenshot] on
    [http://localhost:8000/<relpath>]; a second run follows only a
    first one that exited with status 0, and is on the reference URL;
    every run has the timeout of the loop. *)
Theorem renderer_runs_once_or_twice (env : Env) (wpt blitz outp : string) (t : Z)
    (file rel : string) h fs r ev fs' :
  excluded file = false ->
  os_path_relpath env file wpt = inr rel ->
  loop_body env wpt blitz outp t file h fs = Out r ev fs' ->
  Forall (issued_by_loop blitz t) ev
  /\ ((exists b, invocations ev = [(cargo_command blitz (test_url rel), b)])
      \/ (exists href b,
             invocations ev
             = [(cargo_command blitz (test_url rel), Exited 0);
                (cargo_command blitz (reference_url href), b)])).
Proof.
  intros Hex Hrel H. unfold loop_body in H. rewrite Hex in H.
  apply test_case_invocations in H as (Hall & _ & Hok). split; [exact Hall | auto].
Qed.

Lemma renderer_runs_once_or_twice_witness :
  (excluded Scenario.foo = false
   /\ os_path_relpath Scenario.env_nolink Scenario.foo "/wpt"
      = inr "css/css-flexbox/foo.html")
  /\ Forall (issued_by_loop "/blitz" 5)
       (emitted (Scenario.iteration Scenario.env_nolink Scenario.foo)).
Proof.
  split; [split; reflexivity|].
  apply (renderer_runs_once_or_twice Scenario.env_nolink "/wpt" "/blitz"
           Scenario.output_path 5 Scenario.foo "css/css-flexbox/foo.html" [] ∅ _ _ _
           eq_refl eq_refl (out_eta _)).
Defined.

(** X10: in a whole run every renderer invocation is the [cargo]
    command on the manifest of [BLITZ_REPO] with a timeout of 5, and
    there are at most two invocations for each match that line 80
    keeps. *)
Theorem run_invokes_renderer_at_most_twice_per_test (env : Env) (wpt blitz : string)
    h fs r ev fs' :
  os_getenv env "WPT_DIR" = Some wpt ->
  os_getenv env "BLITZ_REPO" = Some blitz ->
  main env h fs = Out r ev fs' ->
  Forall (issued_by_loop blitz 5) ev
  /\ (length (invocations ev) <= 2 * length (kept (files env wpt)))%nat.
Proof.
  intros Hw Hb H.
  destruct (main_outcome _ _ _ _ _ _ _ _ Hw Hb H)
    as [(e & _ & _ & -> & _) | (r0 & ev0 & _ & Hloop & -> & _)].
  - split; [repeat constructor | cbn; lia].
  - apply loop_invocations in Hloop as [Hall Hlen]. split.
    + apply Forall_app. split; [repeat constructor | exact Hall].
    + rewrite invocations_app. cbn. exact Hlen.
Qed.

Lemma run_invokes_renderer_at_most_twice_per_test_witness :
  (os_getenv Scenario.env_timeout "WPT_DIR" = Some "/wpt"
   /\ os_getenv Scenario.env_timeout "BLITZ_REPO" = Some "/blitz")
  /\ (length (invocations (emitted (main Scenario.env_timeout [] ∅))) <= 4)%nat.
Proof.
  split; [split; reflexivity|].
  apply (run_invokes_renderer_at_most_twice_per_test Scenario.env_timeout "/wpt" "/blitz"
           [] ∅ _ _ _ eq_refl eq_refl (out_eta _)).
Defined.

(** A test case that reaches the comparison: what it compares, what it
    has saved by then, and how the count decides the rest. *)
Lemma comparison_reached (env : Env) (wpt blitz outp : string) (t : Z)
    (file rel : string) h fs r ev fs' (a b : Image) (opts : pm_opts)
    (res : exn + Z * Image) :
  test_case env wpt blitz outp t file h fs = Out r ev fs' ->
  os_path_relpath env file wpt = inr rel ->
  In (EvPixelmatch a b opts res) ev ->
  outp <> actual_out_path rel ->
  In (EvSave (actual_out_path rel) a None) ev
  /\ In (EvSave (expected_out_path rel) b None) ev
  /\ fs' !! actual_out_path rel = Some (Png a)
  /\ fs' !! expected_out_path rel = Some (Png b)
  /\ match res with
     | inl e => r = Raise e /\ log_lines ev = []
     | inr (n, d) =>
         (n <= 0 -> r = Val tt /\ log_lines ev = [(INFO, "PASS: " +:+ file)])
         /\ (0 < n ->
             exists sr,
               In (EvSave (diff_output_path rel) d sr) ev
               /\ match sr with
                  | None =>
                      r = Val tt
                      /\ log_lines ev = [(ERROR, "FAIL: " +:+ file)]
                      /\ fs' !! diff_output_path rel = Some (Png d)
                  | Some e => r = Raise e /\ log_lines ev = []
                  end)
     end.
Proof.
  intros H Hrel Hin Hout. revert Hrel Hin Hout.
  unfold actual_out_path, expected_out_path, diff_output_path.
  run_test_case H; intros Hrel Hin Hout; cbn [In] in Hin;
    repeat (destruct Hin as [Hin | Hin]; [try discriminate Hin|]);
    try contradiction; simplify_eq.
  all: (split; [in_list |]); (split; [in_list |]).
  all: split;
    [ rewrite ?(lookup_insert_ne _ _ _ _ (not_eq_sym (act_is_not_diff _ _)));
      rewrite ?(lookup_insert_ne _ _ _ _ (not_eq_sym (act_is_not_ref _)));
      rewrite lookup_renderer_leaves_ne by (now apply not_eq_sym);
      apply lookup_insert_eq
    | ].
  all: split;
    [ rewrite ?(lookup_insert_ne _ _ _ _ (not_eq_sym (ref_is_not_diff _ _)));
      apply lookup_insert_eq
    | ].
  all: cbn [log_lines]; try (split; reflexivity).
  all: split; intros Hn; try lia; try (split; reflexivity).
  all: eexists; split; [in_list |]; cbn beta iota.
  all: first [ split; reflexivity
             | split; [reflexivity | split; [reflexivity | apply lookup_insert_eq]] ].
Qed.

(** A test case that has read back both of its screenshots compares
    them: the first image handed to [pixelmatch] is the actual
    screenshot, the second the reference screenshot. *)
Lemma screenshots_are_compared (env : Env) (wpt blitz outp : string) (t : Z)
    (file rel : string) h fs r ev fs' (a b : Image) :
  test_case env wpt blitz outp t file h fs = Out r ev fs' ->
  os_path_relpath env file wpt = inr rel ->
  outp <> actual_out_path rel ->
  outp <> expected_out_path rel ->
  In (EvOpen (actual_out_path rel) (inr a)) ev ->
  In (EvOpen (expected_out_path rel) (inr b)) ev ->
  In (EvPixelmatch a b (mkOpts 0 true true)
        (pixelmatch env a b (Image_new (size a)) (mkOpts 0 true true))) ev.
Proof.
  intros H Hrel Hoa Hob Ha Hb. revert Hrel Hoa Hob Ha Hb.
  unfold actual_out_path, expected_out_path.
  run_test_case H; intros Hrel Hoa Hob Ha Hb; simplify_eq;
    pose proof (act_is_not_ref rel) as Hne;
    cbn [In] in Ha, Hb;
    repeat (destruct Hb as [Hb | Hb];
            [ first [ discriminate Hb | exfalso; congruence
                    | injection Hb; intros; subst ] |]);
    try contradiction;
    repeat (destruct Ha as [Ha | Ha];
            [ first [ discriminate Ha | exfalso; congruence
                    | injection Ha; intros; subst ] |]);
    try contradiction;
    match goal with
    | Hpm : pixelmatch _ _ _ _ _ = _ |- _ => rewrite Hpm
    end; in_list.
Qed.

(** C1: the comparison asks [pixelmatch] with threshold 0, a mask-only
    diff and anti-aliased pixels included, about the two images it is
    given, in this order, and reports equality (no diff image) exactly
    when the count is zero, the image [pixelmatch] drew otherwise; it
    writes nothing itself.  The count is a number of pixels, so it is
    not negative (line 41 tests [<= 0]).  A test case that has read
    back its actual and its reference screenshot makes this comparison
    of the two: the PASS line is logged exactly when the count is
    zero, and then the two screenshots are all that was saved and no
    file named [...-diff.png] has changed; with any other count the
    image is saved under the diff name.  Identical screenshots have a
    zero count with a [pixelmatch] that keeps its contract, so they
    pass and leave no diff artifact. *)
Theorem comparison_equal_iff_no_mismatch (env : Env) (img1 img2 : Image) (n : Z)
    (d : Image) :
  pixelmatch env img1 img2 (Image_new (size img1)) (mkOpts 0 true true) = inr (n, d) ->
  0 <= n ->
  (forall h fs,
      create_diff_image_or_none env img1 img2 h fs
      = Out (Val (if n =? 0 then None else Some d))
          [EvPixelmatch img1 img2 (mkOpts 0 true true) (inr (n, d))] fs)
  /\ (forall (wpt blitz : string) (t : Z) (file rel : string) h fs r ev fs',
         excluded file = false ->
         os_path_relpath env file wpt = inr rel ->
         loop_body env wpt blitz (renderer_output blitz) t file h fs = Out r ev fs' ->
         In (EvOpen (actual_out_path rel) (inr img1)) ev ->
         In (EvOpen (expected_out_path rel) (inr img2)) ev ->
         In (EvPixelmatch img1 img2 (mkOpts 0 true true) (inr (n, d))) ev
         /\ (n = 0 <-> log_lines ev = [(INFO, "PASS: " +:+ file)])
         /\ (n = 0 ->
             r = Val tt
             /\ saved_paths ev = [actual_out_path rel; expected_out_path rel]
             /\ (forall p, Str.endswith p "-diff.png" = true -> fs' !! p = fs !! p))
         /\ (n <> 0 -> exists sr, In (EvSave (diff_output_path rel) d sr) ev)
         /\ (pixelmatch_contract env -> img1 = img2 ->
             log_lines ev = [(INFO, "PASS: " +:+ file)]
             /\ saved_paths ev = [actual_out_path rel; expected_out_path rel])).
Proof.
  intros Hpm Hn. split.
  { intros h fs. now apply create_diff_image_or_none_spec. }
  intros wpt blitz t file rel h fs r ev fs' Hex Hrel H Ha Hb.
  unfold loop_body in H. rewrite Hex in H.
  destruct (artifact_names rel) as (Haa & Hae & _).
  assert (renderer_output blitz <> actual_out_path rel) as Hoa
    by now apply not_eq_sym, artifact_is_not_renderer_output.
  assert (renderer_output blitz <> expected_out_path rel) as Hob
    by now apply not_eq_sym, artifact_is_not_renderer_output.
  pose proof (screenshots_are_compared _ _ _ _ _ _ _ _ _ _ _ _ _ _ H Hrel Hoa Hob Ha Hb)
    as Hin.
  rewrite Hpm in Hin.
  destruct (comparison_reached _ _ _ _ _ _ _ _ _ _ _ _ _ _ _ _ H Hrel Hin Hoa)
    as (_ & _ & _ & _ & Hzero & Hpos).
  destruct (test_case_disk _ _ _ _ _ _ _ _ _ _ _ H) as (_ & Hok & Hframe & _).
  destruct (Hok rel Hrel) as (_ & _ & Hpass & _).
  assert (n = 0 ->
          r = Val tt
          /\ log_lines ev = [(INFO, "PASS: " +:+ file)]
          /\ saved_paths ev = [actual_out_path rel; expected_out_path rel]) as Hz.
  { intros ->. destruct Hzero as [-> Hl]; [lia|]. auto. }
  split; [exact Hin|]. split; [|split; [|split]].
  - split; [intros E; now apply Hz|].
    intros Hl. destruct (Z.eq_dec n 0) as [E | E]; [exact E|].
    destruct Hpos as (sr & _ & Hsr); [lia|].
    destruct sr as [e|]; [destruct Hsr as [_ Hl'] | destruct Hsr as (_ & Hl' & _)];
      rewrite Hl' in Hl; discriminate Hl.
  - intros E. destruct (Hz E) as (Hr & _ & Hs). split; [exact Hr | split; [exact Hs|]].
    intros p Hp. apply Hframe.
    + intros ->. unfold renderer_output in Hp. rewrite endswith_app in Hp.
      discriminate Hp.
    + rewrite Hs. cbn [In]. unfold actual_out_path, expected_out_path.
      intros [<- | [<- | []]]; [rewrite act_suffix in Hp | rewrite ref_suffix in Hp];
        discriminate Hp.
  - intros E. destruct Hpos as (sr & Hsave & _); [lia|]. now exists sr.
  - intros Hc ->. destruct (Hc _ _ _ _ _ _ Hpm) as [_ Hsame].
    destruct (Hz (Hsame eq_refl)) as (_ & Hl & Hs). now split.
Qed.

Lemma comparison_equal_iff_no_mismatch_witness :
  (pixelmatch Scenario.env_pass Scenario.shot_a Scenario.shot_a
     (Image_new (size Scenario.shot_a)) (mkOpts 0 true true)
   = inr (0, Image_new (2, 1))
   /\ log_lines (emitted (Scenario.iteration Scenario.env_pass Scenario.foo))
      = [(INFO, "PASS: " +:+ Scenario.foo)]
   /\ saved_paths (emitted (Scenario.iteration Scenario.env_pass Scenario.foo))
      = ["out/css/css-flexbox/foo.html-act.png"; "out/css/css-flexbox/foo.html-ref.png"])
  /\ (pixelmatch Scenario.env_fail Scenario.shot_a Scenario.shot_b
        (Image_new (size Scenario.shot_a)) (mkOpts 0 true true)
      = inr (1, mkImage (2, 1) [(0, 0, 0, 0); (255, 0, 0, 255)])
      /\ log_lines (emitted (Scenario.iteration Scenario.env_fail Scenario.foo))
         <> [(INFO, "PASS: " +:+ Scenario.foo)]
      /\ exists sr,
           In (EvSave "out/css/css-flexbox/foo.html-diff.png"
                 (mkImage (2, 1) [(0, 0, 0, 0); (255, 0, 0, 255)]) sr)
              (emitted (Scenario.iteration Scenario.env_fail Scenario.foo))).
Proof.
  split.
  - split; [reflexivity|].
    destruct (comparison_equal_iff_no_mismatch Scenario.env_pass Scenario.shot_a
                Scenario.shot_a 0 (Image_new (2, 1)) eq_refl (Z.le_refl 0))
      as [_ Hcase].
    destruct (Hcase "/wpt" "/blitz" 5 Scenario.foo "css/css-flexbox/foo.html" [] ∅
                (result (Scenario.iteration Scenario.env_pass Scenario.foo))
                (emitted (Scenario.iteration Scenario.env_pass Scenario.foo))
                (disk (Scenario.iteration Scenario.env_pass Scenario.foo))
                eq_refl eq_refl (out_eta _))
      as (_ & Hpass & Hzero & _).
    + vm_compute. tauto.
    + vm_compute. tauto.
    + split; [now apply Hpass | now apply Hzero].
  - split; [reflexivity|].
    destruct (comparison_equal_iff_no_mismatch Scenario.env_fail Scenario.shot_a
                Scenario.shot_b 1 (mkImage (2, 1) [(0, 0, 0, 0); (255, 0, 0, 255)])
                eq_refl Z.le_0_1)
      as [_ Hcase].
    destruct (Hcase "/wpt" "/blitz" 5 Scenario.foo "css/css-flexbox/foo.html" [] ∅
                (result (Scenario.iteration Scenario.env_fail Scenario.foo))
                (emitted (Scenario.iteration Scenario.env_fail Scenario.foo))
                (disk (Scenario.iteration Scenario.env_fail Scenario.foo))
                eq_refl eq_refl (out_eta _))
      as (_ & Hpass & _ & Hdiff & _).
    + vm_compute. tauto.
    + vm_compute. tauto.
    + split; [|apply Hdiff; discriminate].
      intros Hl. apply Hpass in Hl. discriminate Hl.
Defined.



(** X12: when [pixelmatch] counts at least one mismatch, the image it
    drew is saved under the diff name (the relative path with every
    backslash replaced by [_], between [out/] and [-diff.png]) before
    anything is logged; if the save succeeds the file is on disk and
    the FAIL line is logged at level ERROR, if it fails its exception
    ends the turn and nothing is logged. *)
Theorem mismatch_saves_diff_then_fails (env : Env) (wpt blitz : string) (t : Z)
    (file rel : string) h fs r ev fs' (a b : Image) (opts : pm_opts) (n : Z)
    (d : Image) :
  excluded file = false ->
  os_path_relpath env file wpt = inr rel ->
  loop_body env wpt blitz (renderer_output blitz) t file h fs = Out r ev fs' ->
  In (EvPixelmatch a b opts (inr (n, d))) ev ->
  0 < n ->
  exists sr,
    In (EvSave (diff_output_path rel) d sr) ev
    /\ match sr with
       | None =>
           r = Val tt
           /\ log_lines ev = [(ERROR, "FAIL: " +:+ file)]
           /\ fs' !! diff_output_path rel = Some (Png d)
       | Some e => r = Raise e /\ log_lines ev = []
       end.
Proof.
  intros Hex Hrel H Hin Hn. unfold loop_body in H. rewrite Hex in H.
  destruct (comparison_reached _ _ _ _ _ _ _ _ _ _ _ _ _ _ _ _ H Hrel Hin)
    as (_ & _ & _ & _ & _ & Hpos); [|auto].
  apply not_eq_sym, artifact_is_not_renderer_output, artifact_names.
Qed.

Lemma mismatch_saves_diff_then_fails_witness :
  (excluded Scenario.foo = false
   /\ In (EvPixelmatch Scenario.shot_a Scenario.shot_b (mkOpts 0 true true)
            (inr (1, mkImage (2, 1) [(0, 0, 0, 0); (255, 0, 0, 255)])))
        (emitted (Scenario.iteration Scenario.env_fail Scenario.foo)))
  /\ exists sr,
       In (EvSave (diff_output_path "css/css-flexbox/foo.html")
             (mkImage (2, 1) [(0, 0, 0, 0); (255, 0, 0, 255)]) sr)
          (emitted (Scenario.iteration Scenario.env_fail Scenario.foo)).
Proof.
  assert (In (EvPixelmatch Scenario.shot_a Scenario.shot_b (mkOpts 0 true true)
                (inr (1, mkImage (2, 1) [(0, 0, 0, 0); (255, 0, 0, 255)])))
            (emitted (Scenario.iteration Scenario.env_fail Scenario.foo))) as Hin
    by (vm_compute; tauto).
  split; [split; [reflexivity | exact Hin]|].
  destruct (mismatch_saves_diff_then_fails Scenario.env_fail "/wpt" "/blitz" 5
              Scenario.foo "css/css-flexbox/foo.html" [] ∅ _ _ _ _ _ _ _ _
              eq_refl eq_refl (out_eta _) Hin eq_refl) as (sr & Hsave & _).
  exists sr. exact Hsave.
Defined.

(** X13: the script does not check that the renderer wrote a new
    screenshot.  If the renderer, asked for the reference page, exits
    with status 0 and leaves its output file as it was, the
    "reference" image read from that file is the actual screenshot of
    the test page: the two compared images are the same, and with a
    [pixelmatch] that counts no mismatch between identical images the
    test case passes. *)
Theorem unwritten_reference_compares_actual_with_itself (env : Env)
    (wpt blitz : string) (t : Z) (file rel : string) (tag : Tag) (href : string)
    h fs r ev fs' (a b : Image) (opts : pm_opts) (res : exn + Z * Image) :
  excluded file = false ->
  os_path_relpath env file wpt = inr rel ->
  soup_find_link_match env file = inr (Some tag) ->
  tag_get tag "href" = Some href ->
  (forall h' t', snd (proc env h' (cargo_command blitz (reference_url href)) t') = None) ->
  loop_body env wpt blitz (renderer_output blitz) t file h fs = Out r ev fs' ->
  In (EvPixelmatch a b opts res) ev ->
  a = b
  /\ (pixelmatch_contract env -> forall n d, res = inr (n, d) ->
      r = Val tt /\ log_lines ev = [(INFO, "PASS: " +:+ file)]).
Proof.
  intros Hex Hrel Hsoup Hhref Hnowrite H Hin. unfold loop_body in H. rewrite Hex in H.
  clear Hex. unfold cargo_command, reference_url in Hnowrite.
  assert (forall x, renderer_output blitz <> "out/" +:+ x +:+ "-act.png") as Hout.
  { intros x. apply not_eq_sym, artifact_is_not_renderer_output.
    apply (artifact_names x). }
  revert Hin.
  run_test_case H; intros Hin; cbn [In] in Hin;
    repeat (destruct Hin as [Hin | Hin]; [try discriminate Hin|]);
    try contradiction; simplify_eq.
  all: match goal with
       | Hp : proc _ ?hh _ ?tt = (_, ?w) |- _ =>
           pose proof (Hnowrite hh tt) as Hw; rewrite Hp in Hw; cbn [snd] in Hw;
           subst w
       end.
  all: match goal with
       | Hb : renderer_leaves _ None (<[_:=_]> _) !! _ = Some (Png ?y),
         Ha : renderer_leaves _ _ _ !! _ = Some (Png ?x) |- _ =>
           cbn [renderer_leaves] in Hb;
           rewrite lookup_insert_ne in Hb by (apply not_eq_sym, Hout);
           rewrite Ha in Hb; injection Hb as <-
       end.
  all: split; [reflexivity|].
  all: intros Hc n d Hres; try discriminate Hres; injection Hres as <- <-.
  all: match goal with
       | Hpm : pixelmatch _ _ _ _ _ = inr _ |- _ =>
           destruct (Hc _ _ _ _ _ _ Hpm) as [_ Hsame]; specialize (Hsame eq_refl)
       end.
  all: try lia.
  split; reflexivity.
Qed.

Lemma unwritten_reference_compares_actual_with_itself_witness :
  (forall h' t',
      snd (proc Setup.env_unwritten h'
             (cargo_command "/blitz" (reference_url "foo-ref.html")) t') = None)
  /\ In (EvPixelmatch Scenario.shot_b Scenario.shot_b (mkOpts 0 true true)
           (inr (0, Image_new (2, 1))))
        (emitted (Scenario.iteration Setup.env_unwritten Scenario.foo))
  /\ log_lines (emitted (Scenario.iteration Setup.env_unwritten Scenario.foo))
     = [(INFO, "PASS: " +:+ Scenario.foo)].
Proof.
  assert (In (EvPixelmatch Scenario.shot_b Scenario.shot_b (mkOpts 0 true true)
                (inr (0, Image_new (2, 1))))
            (emitted (Scenario.iteration Setup.env_unwritten Scenario.foo))) as Hin
    by (vm_compute; tauto).
  split; [intros h' t'; reflexivity | split; [exact Hin|]].
  destruct (unwritten_reference_compares_actual_with_itself Setup.env_unwritten
              "/wpt" "/blitz" 5 Scenario.foo "css/css-flexbox/foo.html"
              [("rel", "match"); ("href", "foo-ref.html")] "foo-ref.html"
              [] ∅ _ _ _ _ _ _ _ eq_refl eq_refl eq_refl eq_refl
              (fun _ _ => eq_refl) (out_eta _) Hin) as [_ Hpass].
  now apply (Hpass (posix_pixelmatch_contract _ _ _ _ _) 0 (Image_new (2, 1))).
Defined.

(** ** The artifact names *)

Lemma append_assoc (a b c : string) : (a +:+ b) +:+ c = a +:+ b +:+ c.
Proof.
  induction a as [|x a IH]; [reflexivity|].
  change (String x ((a +:+ b) +:+ c) = String x (a +:+ b +:+ c)).
  now f_equal.
Qed.

Lemma rev_onto_rev (s acc : string) : Str.rev_onto s acc = Str.rev s +:+ acc.
Proof.
  revert acc. induction s as [|c s IH]; intros acc; [reflexivity|].
  change (Str.rev (String c s)) with (Str.rev_onto s (String c EmptyString)).
  change (Str.rev_onto (String c s) acc) with (Str.rev_onto s (String c acc)).
  rewrite (IH (String c acc)), (IH (String c EmptyString)), append_assoc.
  reflexivity.
Qed.

Lemma rev_app (a b : string) : Str.rev (a +:+ b) = Str.rev b +:+ Str.rev a.
Proof. unfold Str.rev at 1. now rewrite rev_onto_app, rev_onto_rev. Qed.

Lemma rev_involutive (s : string) : Str.rev (Str.rev s) = s.
Proof.
  induction s as [|c s IH]; [reflexivity|].
  change (String c s) with (String c EmptyString +:+ s) at 1.
  now rewrite rev_app, rev_app, IH.
Qed.

Lemma append_inj_r (a b s : string) : a +:+ s = b +:+ s -> a = b.
Proof.
  intros H. apply (f_equal Str.rev) in H. rewrite !rev_app in H.
  apply append_inj_l in H. apply (f_equal Str.rev) in H.
  now rewrite !rev_involutive in H.
Qed.

(** X14: the names of the files of a run, as path strings.  Test cases
    with different relative paths have different [-act.png] names and
    different [-ref.png] names, and an actual screenshot, a reference
    screenshot, a diff image and the renderer's output file never
    share a name.  Diff names do collide: two relative paths have the
    same diff name exactly when they are equal once line 137 has
    replaced the backslashes, as [a\b.html] and [a_b.html] are. *)
Theorem only_diff_names_can_collide (blitz rel rel' : string) :
  (actual_out_path rel = actual_out_path rel' -> rel = rel')
  /\ (expected_out_path rel = expected_out_path rel' -> rel = rel')
  /\ (diff_output_path rel = diff_output_path rel'
      <-> Str.replace rel backslash "_" = Str.replace rel' backslash "_")
  /\ ("a" +:+ backslash +:+ "b.html" <> "a_b.html"
      /\ diff_output_path ("a" +:+ backslash +:+ "b.html") = diff_output_path "a_b.html")
  /\ actual_out_path rel <> expected_out_path rel'
  /\ actual_out_path rel <> diff_output_path rel'
  /\ expected_out_path rel <> diff_output_path rel'
  /\ renderer_output blitz <> actual_out_path rel
  /\ renderer_output blitz <> expected_out_path rel
  /\ renderer_output blitz <> diff_output_path rel.
Proof.
  destruct (artifact_names rel) as (Ha & He & Hd).
  split; [|split; [|split; [|split; [|split; [|split; [|split; [|split; [|split]]]]]]]].
  - unfold actual_out_path. intros H. apply append_inj_l in H. now apply append_inj_r in H.
  - unfold expected_out_path. intros H. apply append_inj_l in H.
    now apply append_inj_r in H.
  - unfold diff_output_path. split.
    + intros H. apply append_inj_l in H. now apply append_inj_r in H.
    + now intros ->.
  - split; [discriminate | reflexivity].
  - unfold actual_out_path, expected_out_path. intros H.
    apply (f_equal (fun p => Str.endswith p "-act.png")) in H.
    rewrite !endswith_artifact in H. discriminate H.
  - apply act_is_not_diff.
  - apply ref_is_not_diff.
  - now apply not_eq_sym, artifact_is_not_renderer_output.
  - now apply not_eq_sym, artifact_is_not_renderer_output.
  - now apply not_eq_sym, artifact_is_not_renderer_output.
Qed.
